(** * mcp-design-comparison: the comparison pipeline of [src/index.ts]

  A shallow embedding of [loadPNG], [compareScreenshots] and the
  [CallTool] request handler, with the libraries they call (node's [fs],
  pngjs, pixelmatch) kept behind an interface, and the properties of the
  comparison contract stated over that embedding. *)

From Stdlib Require Import ZArith NArith QArith Qround Qabs List String Ascii Bool Lia Lqa.
From Stdlib Require Import DecimalString Floats.
From stdpp Require Import gmap strings.
Import ListNotations.

Open Scope string_scope.

(** ** JavaScript values used by the program *)

(** A JavaScript [Error]: the program only ever reads [message]; node's
  file-system errors also carry a [code]. *)
Record Error := mkError { message : string; code : option string }.

Definition new_Error (msg : string) : Error :=
  {| message := msg; code := None |}.

(** JavaScript numbers that arise from arithmetic on pixel counts: the
    rational a binary64 value stands for, or one of the values a division
    by zero or an overflow produces. The two zeros are not told apart. *)
Inductive number :=
  | Finite (q : Q)
  | NaN
  | PosInfinity
  | NegInfinity.

Local Open Scope Q_scope.

(** A count of pixels as a number: an integer below [2^53], which binary64
    holds exactly. *)
Definition of_N (n : N) : number := Finite (inject_Z (Z.of_N n)).

(** *** Rounding to binary64

    Every arithmetic operation of JavaScript yields the binary64 value
    nearest to the exact result, ties going to the even significand. *)

(** The integer nearest to [x >= 0], ties to even. *)
Definition round_half_even (x : Q) : Z :=
  let f := Qfloor x in
  match (x - inject_Z f ?= 1 # 2)%Q with
  | Lt => f
  | Gt => (f + 1)%Z
  | Eq => if Z.even f then f else (f + 1)%Z
  end.

(** The exponent [e] with [2^e <= a < 2^(e+1)], for [a > 0]. *)
Definition log2_floor (a : Q) : Z :=
  if Qle_bool 1%Q a then Z.log2 (Qfloor a)
  else (- Z.log2_up (Qceiling (/ a)%Q))%Z.

(** The binary64 value nearest to [a > 0]. Below [2^53] the value keeps
    [t] binary places, 52 below its leading bit and never more than
    1074 (the subnormal range); from [2^53] on it is a multiple of
    [2^s]; from [2^1024] on it is [Infinity]. The bounds [0] on [t] and
    [s] hold by the branch they stand in. *)
Definition binary64_pos (a : Q) : number :=
  let e := log2_floor a in
  if Qle_bool (inject_Z (2 ^ 53)) a then
    let s := Z.max 0 (e - 52) in
    let m := round_half_even (a / inject_Z (2 ^ s)) in
    if (2 ^ 1024 <=? m * 2 ^ s)%Z then PosInfinity
    else Finite (inject_Z (m * 2 ^ s))
  else
    let t := Z.max 0 (Z.min (52 - e) 1074) in
    Finite (Qred (inject_Z (round_half_even (a * inject_Z (2 ^ t)))
                  / inject_Z (2 ^ t))).

Definition num_opp (x : number) : number :=
  match x with
  | Finite q => Finite (- q)
  | NaN => NaN
  | PosInfinity => NegInfinity
  | NegInfinity => PosInfinity
  end.

(** The binary64 value nearest to [q]. *)
Definition binary64 (q : Q) : number :=
  match q ?= 0 with
  | Eq => Finite 0
  | Gt => binary64_pos q
  | Lt => num_opp (binary64_pos (- q))
  end.

(** [x / y] *)
Definition num_div (x y : number) : number :=
  match x, y with
  | Finite a, Finite b =>
    if Qeq_bool b 0 then
      match a ?= 0 with
      | Eq => NaN
      | Gt => PosInfinity
      | Lt => NegInfinity
      end
    else binary64 (a / b)
  | Finite _, (PosInfinity | NegInfinity) => Finite 0
  | PosInfinity, Finite b => if Qle_bool 0 b then PosInfinity else NegInfinity
  | NegInfinity, Finite b => if Qle_bool 0 b then NegInfinity else PosInfinity
  | _, _ => NaN
  end.

(** [x * y] *)
Definition num_mul (x y : number) : number :=
  match x, y with
  | Finite a, Finite b => binary64 (a * b)
  | Finite a, PosInfinity | PosInfinity, Finite a =>
    match a ?= 0 with Eq => NaN | Gt => PosInfinity | Lt => NegInfinity end
  | Finite a, NegInfinity | NegInfinity, Finite a =>
    match a ?= 0 with Eq => NaN | Gt => NegInfinity | Lt => PosInfinity end
  | PosInfinity, PosInfinity | NegInfinity, NegInfinity => PosInfinity
  | PosInfinity, NegInfinity | NegInfinity, PosInfinity => NegInfinity
  | _, _ => NaN
  end.

(** [x <= y] on numbers: every comparison with [NaN] is false. *)
Definition num_le (x y : number) : Prop :=
  match x, y with
  | Finite a, Finite b => a <= b
  | NegInfinity, (Finite _ | PosInfinity | NegInfinity) => True
  | Finite _, PosInfinity | PosInfinity, PosInfinity => True
  | _, _ => False
  end.

(** [x == 0] *)
Definition num_is_zero (x : number) : Prop :=
  match x with
  | Finite a => a == 0
  | _ => False
  end.

(** *** The kernel's binary64

    Rocq's primitive floats are IEEE 754 binary64 values, as JavaScript's
    numbers are; they serve as a reference for [binary64]. *)

(** The number a float stands for. *)
Definition of_float (f : float) : number :=
  match Prim2SF f with
  | S754_zero _ => Finite 0
  | S754_infinity false => PosInfinity
  | S754_infinity true => NegInfinity
  | S754_nan => NaN
  | S754_finite s m e =>
      Finite (Qred ((if s then - 1 else 1) * inject_Z (Z.pos m) * 2 ^ e))
  end.

(** An integer below [2^63] as a float. *)
Definition to_float (z : Z) : float := PrimFloat.of_uint63 (Uint63.of_Z z).

(** [(d / n) * 100] on floats. *)
Definition float_percentage (d n : N) : float :=
  PrimFloat.mul (PrimFloat.div (to_float (Z.of_N d)) (to_float (Z.of_N n)))
                (to_float 100).

Definition number_eqb (x y : number) : bool :=
  match x, y with
  | Finite a, Finite b => Qeq_bool a b
  | NaN, NaN | PosInfinity, PosInfinity | NegInfinity, NegInfinity => true
  | _, _ => false
  end.

Local Close Scope Q_scope.

(** Truthiness of an optional string ([undefined] and [""] are falsy). *)
Definition truthy (s : option string) : bool :=
  match s with
  | Some s => negb (String.eqb s "")
  | None => false
  end.

(** Template-literal conversion of a non-negative integer. *)
Definition N_to_string (n : N) : string := NilZero.string_of_uint (N.to_uint n).

(** [s.includes(sub)] *)
Fixpoint includes (sub s : string) : bool :=
  String.prefix sub s ||
  match s with
  | EmptyString => false
  | String _ rest => includes sub rest
  end.

(** ** [Buffer.prototype.toString("base64")] *)

Module Base64.

Definition alphabet : string :=
  "ABCDEFGHIJKLMNOPQRSTUVWXYZabcdefghijklmnopqrstuvwxyz0123456789+/".

Definition digit (n : N) : ascii :=
  match String.get (N.to_nat n) alphabet with
  | Some c => c
  | None => "="%char
  end.

Definition b (x : Byte.byte) : N := Byte.to_N x.

(** Three input bytes give four digits; a final group of one or two
    bytes is padded with [=]. *)
Fixpoint encode (l : list Byte.byte) : string :=
  match l with
  | [] => ""
  | [x] =>
      String (digit (b x / 4))
        (String (digit ((b x mod 4) * 16)) "==")
  | [x; y] =>
      String (digit (b x / 4))
        (String (digit ((b x mod 4) * 16 + b y / 16))
           (String (digit ((b y mod 16) * 4)) "="))
  | x :: y :: z :: rest =>
      String (digit (b x / 4))
        (String (digit ((b x mod 4) * 16 + b y / 16))
           (String (digit ((b y mod 16) * 4 + b z / 64))
              (String (digit (b z mod 64)) (encode rest))))
  end.

End Base64.

(** ** pngjs images *)

Record PNG := mkPNG { width : N; height : N; data : list Byte.byte }.

(** [new PNG({ width, height })]: a zero-filled RGBA buffer. *)
Definition new_PNG (w h : N) : PNG :=
  {| width := w; height := h;
   data := repeat Byte.x00 (N.to_nat (4 * w * h)) |}.

(** ** The world the program runs in *)

(** Calls that leave the program, in the order they are made. *)
Inductive event :=
  | EvReadFile (path : string)
  | EvPngRead (bytes : list Byte.byte)
  | EvPixelmatch (w h : N) (threshold : Q)
  | EvPngWrite (img : PNG)
  | EvWriteFile (path : string).

Record State := mkState {
  files : gmap string (list Byte.byte);
  trace : list event
  }.

Definition log (ev : event) (st : State) : State :=
  {| files := files st; trace := trace st ++ [ev] |}.

(** How a call ends: normally with a value, or by throwing. *)
Inductive completion (A : Type) :=
  | Normal (a : A)
  | Throw (e : Error).
Arguments Normal {A} a.
Arguments Throw {A} e.

(** An [async] function: runs against the state, and may throw; what it
  did before throwing stays done. *)
Definition M (A : Type) : Type := State -> completion A * State.

Definition ret {A} (a : A) : M A := fun st => (Normal a, st).
Definition throw {A} (e : Error) : M A := fun st => (Throw e, st).
Definition bind {A B} (m : M A) (k : A -> M B) : M B :=
  fun st =>
  match m st with
  | (Normal a, st') => k a st'
  | (Throw e, st') => (Throw e, st')
  end.
Definition emit (ev : event) : M unit := fun st => (Normal tt, log ev st).

(** [try { body } catch (error) { handler }] *)
Definition try_catch {A} (body : M A) (handler : Error -> M A) : M A :=
  fun st =>
  match body st with
  | (Normal a, st') => (Normal a, st')
  | (Throw e, st') => handler e st'
  end.

Declare Scope js_scope.
Delimit Scope js_scope with js.
Notation "x <- m ;; k" := (bind m (fun x => k))
  (at level 100, m at next level, right associativity) : js_scope.
Notation "m ;;; k" := (bind m (fun _ => k))
  (at level 100, right associativity) : js_scope.
Open Scope js_scope.

Definition is_throw {A} (r : completion A * State) : bool :=
  match fst r with
  | Throw _ => true
  | Normal _ => false
  end.

(** Number of calls to pixelmatch recorded in a trace. *)
Definition pixelmatch_calls (tr : list event) : nat :=
  length (List.filter (fun ev => match ev with EvPixelmatch _ _ _ => true | _ => false end) tr).

(** Number of calls to the decoder recorded in a trace. *)
Definition decode_calls (tr : list event) : nat :=
  length (List.filter (fun ev => match ev with EvPngRead _ => true | _ => false end) tr).

(** ** The libraries behind the program *)

(** What the program imports and does not define. *)
Class Externals := {
  (* pngjs: PNG.sync.read, which throws on what it cannot decode *)
  PNG_sync_read : list Byte.byte -> Error + PNG;
  (* pngjs: PNG.sync.write *)
  PNG_sync_write : PNG -> list Byte.byte;
  (* pixelmatch(img1, img2, output, width, height, { threshold }): the
     count of mismatched pixels, and the output buffer as it leaves it *)
  pixelmatch :
    list Byte.byte -> list Byte.byte -> N -> N -> Q -> N * list Byte.byte;
  (* the operating system's refusal, if any, to write at a path *)
  write_refusal : string -> option Error;
  (* Number.prototype.toLocaleString() in the host's locale *)
  toLocaleString : N -> string;
  (* Number.prototype.toFixed(2) *)
  toFixed2 : number -> string
}.

Section Program.

Context `{Externals}.

(** *** [fs/promises] *)

Definition ENOENT (path : string) : Error :=
  {| message := "ENOENT: no such file or directory, open '" ++ path ++ "'";
     code := Some "ENOENT" |}.

(** [readFile(path)] on a file system of regular, readable files: a path
    either holds the bytes of a file or holds nothing, and then the read
    fails with [ENOENT]. Directories and files the process may not read,
    on which the read fails with another error ([EISDIR], [EACCES]), are
    not part of this file system. *)
Definition readFile (path : string) : M (list Byte.byte) :=
  emit (EvReadFile path) ;;;
  fun st =>
    match files st !! path with
    | Some bytes => (Normal bytes, st)
    | None => (Throw (ENOENT path), st)
    end.

Definition writeFile (path : string) (bytes : list Byte.byte) : M unit :=
  emit (EvWriteFile path) ;;;
  fun st =>
    match write_refusal path with
    | Some e => (Throw e, st)
    | None =>
        (Normal tt, {| files := <[path := bytes]> (files st); trace := trace st |})
    end.

(** *** [src/index.ts] *)

Record CompareResult := mkCompareResult {
  totalPixels : N;
  differentPixels : N;
  differencePercentage : number;
  diffImageBase64 : option string
  }.

(** The own property names of a result object. *)
Definition keys (r : CompareResult) : list string :=
  ["totalPixels"; "differentPixels"; "differencePercentage"]
  ++ match diffImageBase64 r with
     | Some _ => ["diffImageBase64"]
     | None => []
     end.

Definition loadPNG (filePath : string) : M PNG :=
  data <- readFile filePath ;;
  emit (EvPngRead data) ;;;
  match PNG_sync_read data with
  | inr png => ret png
  | inl e => throw e
  end.

Definition dimensions_message (design implementation : PNG) : string :=
  "Image dimensions don't match: design ("
  ++ N_to_string (width design) ++ "x" ++ N_to_string (height design)
  ++ ") vs implementation ("
  ++ N_to_string (width implementation) ++ "x"
  ++ N_to_string (height implementation) ++ ")".

(** [WxH], as the message spells a pair of dimensions. *)
Definition dimensions (img : PNG) : string :=
  N_to_string (width img) ++ "x" ++ N_to_string (height img).

Definition default_threshold : Q := 1 # 10.

Definition compareScreenshots
    (designPath implementationPath : string)
    (outputDiffPath : option string) (threshold : option Q)
    : M CompareResult :=
  let threshold := default default_threshold threshold in
  (* Load both images *)
  design <- loadPNG designPath ;;
  implementation <- loadPNG implementationPath ;;
  (* Check if dimensions match *)
  if negb (width design =? width implementation)%N
     || negb (height design =? height implementation)%N
  then throw (new_Error (dimensions_message design implementation))
  else
    (* Create a diff image *)
    let diff := new_PNG (width design) (height design) in
    (* Compare images using pixelmatch *)
    emit (EvPixelmatch (width design) (height design) threshold) ;;;
    let '(differentPixels, diff_data) :=
      pixelmatch (data design) (data implementation)
        (width design) (height design) threshold in
    let diff := {| width := width diff; height := height diff;
                   data := diff_data |} in
    let totalPixels := (width design * height design)%N in
    let differencePercentage :=
      num_mul (num_div (of_N differentPixels) (of_N totalPixels))
              (Finite 100) in
    let result := {| totalPixels := totalPixels;
                     differentPixels := differentPixels;
                     differencePercentage := differencePercentage;
                     diffImageBase64 := None |} in
    (* Save or encode diff image *)
    if truthy outputDiffPath then
      emit (EvPngWrite diff) ;;;
      writeFile (default "" outputDiffPath) (PNG_sync_write diff) ;;;
      ret result
    else
      (* Return base64 encoded diff image *)
      emit (EvPngWrite diff) ;;;
      let buffer := PNG_sync_write diff in
      ret {| totalPixels := totalPixels;
             differentPixels := differentPixels;
             differencePercentage := differencePercentage;
             diffImageBase64 := Some (Base64.encode buffer) |}.

End Program.

(** *** The [CallTool] request handler of [src/index.ts] *)

Section Handler.

Context `{Externals}.

Record CallToolArguments := mkArguments {
  design_path : string;
  implementation_path : string;
  output_diff_path : option string;
  threshold : option Q
  }.

Record CallToolRequest := mkRequest {
  name : string;
  arguments : option CallToolArguments
  }.

Inductive Content :=
| TextContent (text : string)
| ImageContent (image_data : string) (mimeType : string).

Record CallToolResult := mkCallToolResult {
  content : list Content;
  isError : option bool
  }.

Definition newline : string := String (ascii_of_nat 10) "".

(** What destructuring [undefined] throws (V8's wording). *)
Definition destructure_error : Error :=
  new_Error
    "Cannot destructure property 'design_path' of 'request.params.arguments' as it is undefined.".

Definition responseText (result : CompareResult) (output_diff_path : option string)
    : string :=
  "Design Comparison Results:" ++ newline ++ newline
  ++ "Total Pixels: " ++ toLocaleString (totalPixels result) ++ newline
  ++ "Different Pixels: " ++ toLocaleString (differentPixels result) ++ newline
  ++ "Difference: " ++ toFixed2 (differencePercentage result) ++ "%" ++ newline
  ++ (if truthy output_diff_path
      then newline ++ "Diff image saved to: " ++ default "" output_diff_path
      else "").

Definition CallTool_handler (request : CallToolRequest) : M CallToolResult :=
  if String.eqb (name request) "compare_design" then
    match arguments request with
    | None => throw destructure_error
    | Some args =>
        let threshold := default default_threshold (threshold args) in
        try_catch
          (result <- compareScreenshots (design_path args)
                       (implementation_path args) (output_diff_path args)
                       (Some threshold) ;;
           let text := responseText result (output_diff_path args) in
           ret {| content :=
                    TextContent text
                    :: (* If we have base64 image data, include it *)
                       (if truthy (diffImageBase64 result)
                        then [ImageContent (default "" (diffImageBase64 result))
                                "image/png"]
                        else []);
                  isError := None |})
          (fun error =>
             ret {| content :=
                      [TextContent ("Error comparing screenshots: "
                                    ++ message error)];
                    isError := Some true |})
    end
  else throw (new_Error ("Unknown tool: " ++ name request)).

End Handler.

(** ** The comparator the program delegates to *)

Module Comparator.

Definition pixel : Type := Byte.byte * Byte.byte * Byte.byte * Byte.byte.

(** Modelled from the spec: the per-pixel colour distance and the bound a
    threshold allows (section 4.2). The program takes both from the
    pixelmatch package, which is not part of the repository, and the spec
    fixes no formula. Three laws stand for its words: a pixel is at
    distance 0 from itself and the bound of a threshold in 0..1 is not
    negative, so that equal pixels are never flagged (section 8,
    Identity); and within 0..1 a higher threshold gives a bound at least
    as high (section 4.2: higher threshold, fewer pixels flagged). *)
Class Metric := {
  distance : pixel -> pixel -> Q;
  limit : Q -> Q;
  marker : pixel;
  neutral : pixel -> pixel;
  distance_same : forall p, (distance p p == 0)%Q;
  limit_nonneg : forall t, (0 <= t)%Q -> (t <= 1)%Q -> (0 <= limit t)%Q;
  limit_mono :
    forall t1 t2,
      (0 <= t1)%Q -> (t1 <= t2)%Q -> (t2 <= 1)%Q -> (limit t1 <= limit t2)%Q
  }.

Section Compare.

Context `{Metric}.

(** The four channel bytes of pixel [i] of an RGBA buffer. *)
Definition pixel_at (buf : list Byte.byte) (i : nat) : pixel :=
  (nth (4 * i) buf Byte.x00, nth (4 * i + 1) buf Byte.x00,
   nth (4 * i + 2) buf Byte.x00, nth (4 * i + 3) buf Byte.x00).

Definition channels (p : pixel) : list Byte.byte :=
  let '(r, g, b, a) := p in [r; g; b; a].

Definition positions (w h : N) : list nat := seq 0 (N.to_nat (w * h)).

(** Modelled from the spec: a pixel is different when its distance exceeds
    the bound the threshold allows (section 4.2; pixelmatch is not part of
    the repository). *)
Definition differs (t : Q) (a b : list Byte.byte) (i : nat) : bool :=
  negb (Qle_bool (distance (pixel_at a i) (pixel_at b i)) (limit t)).

(** Modelled from the spec: [compare(a, b, threshold)] of section 4.2, on
    the buffers of two rasters of [w] by [h] pixels (pixelmatch is not part
    of the repository): the count of differing positions, and a diff
    buffer with the marker at every differing position and a neutral
    version of the pixel elsewhere. *)
Definition compare (a b : list Byte.byte) (w h : N) (t : Q)
    : N * list Byte.byte :=
  (N.of_nat (length (List.filter (differs t a b) (positions w h))),
   flat_map
     (fun i => channels (if differs t a b i then marker
                         else neutral (pixel_at a i)))
     (positions w h)).

End Compare.

End Comparator.

(** ** A concrete instance of the libraries

    Small stand-ins on which the program can be run: a container with the
    PNG signature, one byte of width, one of height and the raw RGBA
    bytes; a squared-difference colour distance; a file system that
    refuses writes under [/readonly/]. *)

Module Sample.

Definition signature : list Byte.byte :=
  [Byte.x89; Byte.x50; Byte.x4e; Byte.x47; Byte.x0d; Byte.x0a; Byte.x1a; Byte.x0a].

Fixpoint bytes_eqb (a b : list Byte.byte) : bool :=
  match a, b with
  | [], [] => true
  | x :: a', y :: b' => Byte.eqb x y && bytes_eqb a' b'
  | _, _ => false
  end.

Definition read (bytes : list Byte.byte) : Error + PNG :=
  if bytes_eqb (firstn 8 bytes) signature then
    match skipn 8 bytes with
    | w :: h :: rest =>
        if (N.of_nat (length rest) =? 4 * Byte.to_N w * Byte.to_N h)%N
        then inr {| width := Byte.to_N w; height := Byte.to_N h; data := rest |}
        else inl (new_Error "bad png - invalid inflate data response")
    | _ => inl (new_Error "There are some read requests waitng on finished stream")
    end
  else inl (new_Error "unrecognised content at end of stream").

Definition to_byte (n : N) : Byte.byte :=
  match Byte.of_N (n mod 256) with
  | Some x => x
  | None => Byte.x00
  end.

Definition write (img : PNG) : list Byte.byte :=
  signature ++ [to_byte (width img); to_byte (height img)] ++ data img.

Definition channel_gap (x y : Byte.byte) : Q :=
  inject_Z (Z.of_N (Byte.to_N x) - Z.of_N (Byte.to_N y)).

Definition squared_distance (p q : Comparator.pixel) : Q :=
  let '(r1, g1, b1, a1) := p in
  let '(r2, g2, b2, a2) := q in
  (channel_gap r1 r2 * channel_gap r1 r2 + channel_gap g1 g2 * channel_gap g1 g2
   + channel_gap b1 b2 * channel_gap b1 b2 + channel_gap a1 a2 * channel_gap a1 a2)%Q.

Definition squared_limit (t : Q) : Q := (35215 * t * t)%Q.

Definition refusal (path : string) : option Error :=
  if String.prefix "/readonly/" path
  then Some {| message := "EACCES: permission denied, open '" ++ path ++ "'";
               code := Some "EACCES" |}
  else None.

Definition two_digits (n : Z) : string :=
  (if (n <? 10)%Z then "0" else "") ++ N_to_string (Z.to_N n).

Definition fixed2 (x : number) : string :=
  match x with
  | Finite q =>
      let n := Qfloor (Qabs q * 100 + (1 # 2))%Q in
      (if Qle_bool 0 q then "" else "-")
      ++ N_to_string (Z.to_N (n / 100)) ++ "." ++ two_digits (n mod 100)
  | NaN => "NaN"
  | PosInfinity => "Infinity"
  | NegInfinity => "-Infinity"
  end.

Lemma squared_distance_same (p : Comparator.pixel) :
  (squared_distance p p == 0)%Q.
Proof.
  destruct p as [[[r g] b] a]. unfold squared_distance, channel_gap.
  rewrite !Z.sub_diag. reflexivity.
Qed.

Lemma squared_limit_nonneg (t : Q) :
  (0 <= t)%Q -> (t <= 1)%Q -> (0 <= squared_limit t)%Q.
Proof. unfold squared_limit. intros. nra. Qed.

Lemma squared_limit_mono (t1 t2 : Q) :
  (0 <= t1)%Q -> (t1 <= t2)%Q -> (t2 <= 1)%Q ->
  (squared_limit t1 <= squared_limit t2)%Q.
Proof. unfold squared_limit. intros. nra. Qed.

Definition metric : Comparator.Metric :=
  {| Comparator.distance := squared_distance;
     Comparator.limit := squared_limit;
     Comparator.marker := (Byte.xff, Byte.x00, Byte.x00, Byte.xff);
     Comparator.neutral := fun _ => (Byte.xff, Byte.xff, Byte.xff, Byte.xff);
     Comparator.distance_same := squared_distance_same;
     Comparator.limit_nonneg := squared_limit_nonneg;
     Comparator.limit_mono := squared_limit_mono |}.

Definition externals : Externals :=
  {| PNG_sync_read := read;
     PNG_sync_write := write;
     pixelmatch := @Comparator.compare metric;
     write_refusal := refusal;
     toLocaleString := N_to_string;
     toFixed2 := fixed2 |}.

(** The fixture of the test suite: a solid image of one colour. *)
Definition createTestPNG (w h : N) (color : Comparator.pixel) : list Byte.byte :=
  write {| width := w; height := h;
           data := concat (repeat (Comparator.channels color) (N.to_nat (w * h))) |}.

Definition red : Comparator.pixel := (Byte.xff, Byte.x00, Byte.x00, Byte.xff).
Definition blue : Comparator.pixel := (Byte.x00, Byte.x00, Byte.xff, Byte.xff).

Definition disk (entries : list (string * list Byte.byte)) : State :=
  {| files := list_to_map entries; trace := [] |}.

(** Two identical 2x2 red images. *)
Definition two_reds : State :=
  disk [("design.png", createTestPNG 2 2 red);
        ("implementation.png", createTestPNG 2 2 red)].

(** A 2x2 red image and a 2x2 blue one. *)
Definition red_and_blue : State :=
  disk [("design.png", createTestPNG 2 2 red);
        ("implementation.png", createTestPNG 2 2 blue)].

(** The fixtures of the dimension test: 10x10 red against 20x20 blue. *)
Definition sizes : State :=
  disk [("size1.png", createTestPNG 10 10 red);
        ("size2.png", createTestPNG 20 20 blue)].

(** Two images of no pixels: width 0, height 1. *)
Definition empty_images : State :=
  disk [("design.png", createTestPNG 0 1 red);
        ("implementation.png", createTestPNG 0 1 red)].

(** A 2x2 red image and a 2x2 image of a darker red, (155, 0, 0, 255). *)
Definition red_and_dark_red : State :=
  disk [("design.png", createTestPNG 2 2 red);
        ("implementation.png",
         createTestPNG 2 2 (Byte.x9b, Byte.x00, Byte.x00, Byte.xff))].

(** A 10x10 red image, and the same with its first seven pixels blue. *)
Definition seven_of_hundred : State :=
  disk [("design.png", createTestPNG 10 10 red);
        ("implementation.png",
         write {| width := 10; height := 10;
                  data := concat (repeat (Comparator.channels blue) 7
                                  ++ repeat (Comparator.channels red) 93) |})].

(** The fixture of the format test. *)
Definition not_an_image : State :=
  disk [("not-an-image.txt", list_byte_of_string "This is not an image file")].

End Sample.

(** * Properties *)

(** ** Rounding *)

Lemma round_half_even_nonneg (x : Q) :
  (0 <= x)%Q -> (0 <= round_half_even x)%Z.
Proof.
  intros Hx. unfold round_half_even.
  assert (Hf : (0 <= Qfloor x)%Z).
  { change 0%Z with (Qfloor 0). now apply Qfloor_resp_le. }
  destruct (x - inject_Z (Qfloor x) ?= 1 # 2)%Q;
    [destruct (Z.even (Qfloor x))| |]; lia.
Qed.

(** Rounding never crosses an integer. *)
Lemma round_half_even_le (x : Q) (c : Z) :
  (x <= inject_Z c)%Q -> (round_half_even x <= c)%Z.
Proof.
  intros Hx. unfold round_half_even.
  assert (Hf : (Qfloor x <= c)%Z).
  { rewrite <- (Qfloor_Z c). now apply Qfloor_resp_le. }
  destruct (Z.eq_dec (Qfloor x) c) as [Heq | Hne].
  - assert (Hlt : (x - inject_Z (Qfloor x) ?= 1 # 2)%Q = Lt).
    { apply (proj1 (Qlt_alt _ _)). rewrite Heq. lra. }
    rewrite Hlt. lia.
  - destruct (x - inject_Z (Qfloor x) ?= 1 # 2)%Q;
      [destruct (Z.even (Qfloor x))| |]; lia.
Qed.

Lemma binary64_zero (q : Q) : (q == 0)%Q -> binary64 q = Finite 0.
Proof.
  intros Hq. unfold binary64. apply (proj1 (Qeq_alt _ _)) in Hq.
  now rewrite Hq.
Qed.

(** A value between 0 and an integer below [2^53] rounds to a finite
    value between the same two. *)
Lemma binary64_bounds (q : Q) (c : Z) :
  (0 <= q)%Q -> (q <= inject_Z c)%Q -> (c < 2 ^ 53)%Z ->
  exists v, binary64 q = Finite v /\ (0 <= v)%Q /\ (v <= inject_Z c)%Q.
Proof.
  intros H0 Hc Hsmall. unfold binary64.
  destruct (q ?= 0)%Q eqn:Hcmp.
  - exists 0%Q. split; [reflexivity|]. split; lra.
  - apply (proj2 (Qlt_alt _ _)) in Hcmp. lra.
  - apply (proj2 (Qgt_alt _ _)) in Hcmp. unfold binary64_pos.
    assert (Hbig : Qle_bool (inject_Z (2 ^ 53)) q = false).
    { destruct (Qle_bool (inject_Z (2 ^ 53)) q) eqn:Hle; [|reflexivity].
      apply Qle_bool_iff in Hle.
      assert (Hlt : (inject_Z c < inject_Z (2 ^ 53))%Q)
        by now rewrite <- Zlt_Qlt.
      lra. }
    rewrite Hbig.
    set (t := Z.max 0 (Z.min (52 - log2_floor q) 1074)).
    assert (Hp : (0 < 2 ^ t)%Z) by (apply Z.pow_pos_nonneg; lia).
    assert (HpQ : (0 < inject_Z (2 ^ t))%Q)
      by (change 0%Q with (inject_Z 0); now rewrite <- Zlt_Qlt).
    set (m := round_half_even (q * inject_Z (2 ^ t))).
    assert (Hm0 : (0 <= m)%Z).
    { apply round_half_even_nonneg. apply Qmult_le_0_compat; lra. }
    assert (Hmc : (m <= c * 2 ^ t)%Z).
    { apply round_half_even_le. rewrite inject_Z_mult.
      apply Qmult_le_compat_r; lra. }
    eexists. split; [reflexivity|]. rewrite Qred_correct. split.
    + apply Qle_shift_div_l; [exact HpQ|].
      rewrite Qmult_0_l. change 0%Q with (inject_Z 0).
      now rewrite <- Zle_Qle.
    + apply Qle_shift_div_r; [exact HpQ|].
      rewrite <- inject_Z_mult. now rewrite <- Zle_Qle.
Qed.

(** The percentage of a count that does not exceed the total. *)
Lemma percentage_in_range (d n : N) :
  (d <= n)%N -> n <> 0%N ->
  exists q v,
    binary64 (inject_Z (Z.of_N d) / inject_Z (Z.of_N n)) = Finite q
    /\ binary64 (q * 100) = Finite v
    /\ num_mul (num_div (of_N d) (of_N n)) (Finite 100) = Finite v
    /\ (0 <= v)%Q /\ (v <= 100)%Q.
Proof.
  intros Hle Hpos.
  assert (Hn : (0 < inject_Z (Z.of_N n))%Q).
  { unfold Qlt. simpl. lia. }
  assert (H0 : (0 <= inject_Z (Z.of_N d) / inject_Z (Z.of_N n))%Q).
  { apply Qle_shift_div_l; [exact Hn|]. unfold Qle. simpl. lia. }
  assert (H1 : (inject_Z (Z.of_N d) / inject_Z (Z.of_N n) <= inject_Z 1)%Q).
  { apply Qle_shift_div_r; [exact Hn|]. unfold Qle. simpl. lia. }
  destruct (binary64_bounds _ 1 H0 H1) as (q & Hq & Hq0 & Hq1); [lia|].
  assert (Hq1' : (q <= 1)%Q) by exact Hq1.
  destruct (binary64_bounds (q * 100) 100) as (v & Hv & Hv0 & Hv100);
    [lra | change (inject_Z 100) with 100%Q; lra | lia |].
  exists q, v. split; [exact Hq|]. split; [exact Hv|].
  split; [|split; [exact Hv0 | exact Hv100]].
  unfold of_N, num_div.
  destruct (Qeq_bool (inject_Z (Z.of_N n)) 0) eqn:Hz.
  - apply Qeq_bool_eq in Hz. lra.
  - rewrite Hq. exact Hv.
Qed.

(** The program's percentage is the one the kernel's floats give, for
    every count of different pixels up to every total of 0 to 64 pixels;
    [0 / 0] is among them. *)
Example percentage_agrees_with_floats :
  forallb
    (fun n =>
       forallb
         (fun d =>
            number_eqb
              (of_float (float_percentage (N.of_nat d) (N.of_nat n)))
              (num_mul (num_div (of_N (N.of_nat d)) (of_N (N.of_nat n)))
                       (Finite 100)))
         (seq 0 (S n)))
    (seq 0 65)
  = true.
Proof. vm_compute. reflexivity. Qed.

(** [binary64] rounds as the kernel's floats do: integers between [2^53]
    and [2^63], where ties occur, and quotients of integers. *)
Example binary64_agrees_with_floats :
  forallb
    (fun z => number_eqb (of_float (to_float z)) (binary64 (inject_Z z)))
    [9007199254740993; 9007199254740995; 18014398509481985;
     18014398509481987; 36028797018963969; 36028797018963971;
     36028797018963975; 4611686018427387903; 4611686018427387905;
     9223372036854775807]%Z
  && forallb
       (fun p =>
          number_eqb
            (of_float (PrimFloat.div (to_float (fst p)) (to_float (snd p))))
            (binary64 (inject_Z (fst p) / inject_Z (snd p))))
       [(1, 3); (2, 3); (7, 100); (1, 9007199254740991);
        (9007199254740991, 2); (4503599627370497, 2);
        (4503599627370499, 4); (4503599627370501, 8);
        (123456789, 987654321); (999999999999, 1000000000000)]%Z
  = true.
Proof. vm_compute. reflexivity. Qed.

(** ** Strings *)

Lemma append_cons (ch : ascii) (a b : string) :
  String ch a ++ b = String ch (a ++ b).
Proof. reflexivity. Qed.

Lemma append_assoc' (a b c : string) : (a ++ b) ++ c = a ++ b ++ c.
Proof.
  induction a as [|ch a IH]; [reflexivity|].
  rewrite !append_cons. f_equal. exact IH.
Qed.

Lemma prefix_append (sub rest : string) : String.prefix sub (sub ++ rest) = true.
Proof.
  induction sub as [|ch sub IH].
  - now destruct rest.
  - rewrite append_cons. simpl.
    destruct (ascii_dec ch ch) as [_ | Hne]; [exact IH | now elim Hne].
Qed.

Lemma includes_here (sub s : string) :
  String.prefix sub s = true -> includes sub s = true.
Proof. intros Hp. destruct s; simpl in *; rewrite Hp; reflexivity. Qed.

Lemma includes_append (pre sub post : string) :
  includes sub (pre ++ sub ++ post) = true.
Proof.
  induction pre as [|ch pre IH].
  - change (includes sub (sub ++ post) = true).
    apply includes_here, prefix_append.
  - rewrite append_cons. simpl. rewrite IH. apply orb_true_r.
Qed.

Lemma includes_intro (sub s pre post : string) :
  s = pre ++ sub ++ post -> includes sub s = true.
Proof. intros ->. apply includes_append. Qed.

(** ** The state a call leaves behind *)

Section Runs.

Context `{Externals}.

Lemma loadPNG_eq (path : string) (st : State) :
  loadPNG path st =
  match files st !! path with
  | None => (Throw (ENOENT path), log (EvReadFile path) st)
  | Some bytes =>
      match PNG_sync_read bytes with
      | inr png => (Normal png, log (EvPngRead bytes) (log (EvReadFile path) st))
      | inl e => (Throw e, log (EvPngRead bytes) (log (EvReadFile path) st))
      end
  end.
Proof.
  unfold loadPNG, readFile, bind, emit, ret, throw. simpl.
  destruct (files st !! path) as [bytes|]; [|reflexivity].
  destruct (PNG_sync_read bytes); reflexivity.
Qed.

Lemma pixelmatch_calls_app (tr1 tr2 : list event) :
  pixelmatch_calls (tr1 ++ tr2) = (pixelmatch_calls tr1 + pixelmatch_calls tr2)%nat.
Proof. unfold pixelmatch_calls. now rewrite List.filter_app, length_app. Qed.

Lemma decode_calls_app (tr1 tr2 : list event) :
  decode_calls (tr1 ++ tr2) = (decode_calls tr1 + decode_calls tr2)%nat.
Proof. unfold decode_calls. now rewrite List.filter_app, length_app. Qed.

(** Loading reads: it leaves the files alone and never calls pixelmatch. *)
Lemma loadPNG_frame (path : string) (st st' : State) (c : completion PNG) :
  loadPNG path st = (c, st') ->
  files st' = files st /\
  pixelmatch_calls (trace st') = pixelmatch_calls (trace st).
Proof.
  rewrite loadPNG_eq. intros Hrun.
  destruct (files st !! path) as [bytes|];
    [destruct (PNG_sync_read bytes)|];
    inversion Hrun; subst; simpl; (split; [reflexivity|]);
    rewrite ?pixelmatch_calls_app; cbn; lia.
Qed.

Lemma loadPNG_no_pixelmatch (path : string) (st st' : State)
    (c : completion PNG) (w h : N) (t : Q) :
  loadPNG path st = (c, st') ->
  In (EvPixelmatch w h t) (trace st') -> In (EvPixelmatch w h t) (trace st).
Proof.
  rewrite loadPNG_eq. intros Hrun.
  destruct (files st !! path) as [bytes|];
    [destruct (PNG_sync_read bytes)|];
    inversion Hrun; subst; simpl; rewrite ?in_app_iff; simpl;
    intuition discriminate.
Qed.

(** The diff image and the result of a comparison that got past the
    dimension check, as the body of [compareScreenshots] builds them. *)
Definition diff_of (design implementation : PNG) (t : Q) : PNG :=
  {| width := width design; height := height design;
     data := snd (pixelmatch (data design) (data implementation)
                    (width design) (height design) t) |}.

Definition result_of (design implementation : PNG) (t : Q)
    (base64 : option string) : CompareResult :=
  let differentPixels :=
    fst (pixelmatch (data design) (data implementation)
           (width design) (height design) t) in
  let totalPixels := (width design * height design)%N in
  {| totalPixels := totalPixels;
     differentPixels := differentPixels;
     differencePercentage :=
       num_mul (num_div (of_N differentPixels) (of_N totalPixels)) (Finite 100);
     diffImageBase64 := base64 |}.

Definition mismatch (design implementation : PNG) : bool :=
  negb (width design =? width implementation)%N
  || negb (height design =? height implementation)%N.

Lemma mismatch_true (design implementation : PNG) :
  mismatch design implementation = true <->
  width design <> width implementation \/ height design <> height implementation.
Proof.
  unfold mismatch. rewrite orb_true_iff, !negb_true_iff, !N.eqb_neq. tauto.
Qed.

Lemma mismatch_false (design implementation : PNG) :
  mismatch design implementation = false <->
  width design = width implementation /\ height design = height implementation.
Proof.
  unfold mismatch. rewrite orb_false_iff, !negb_false_iff, !N.eqb_eq. tauto.
Qed.

Lemma compareScreenshots_load1_throws dp ip out thr st e st1 :
  loadPNG dp st = (Throw e, st1) ->
  compareScreenshots dp ip out thr st = (Throw e, st1).
Proof. intros H1. unfold compareScreenshots, bind. now rewrite H1. Qed.

Lemma compareScreenshots_load2_throws dp ip out thr st design st1 e st2 :
  loadPNG dp st = (Normal design, st1) ->
  loadPNG ip st1 = (Throw e, st2) ->
  compareScreenshots dp ip out thr st = (Throw e, st2).
Proof. intros H1 H2. unfold compareScreenshots, bind. now rewrite H1, H2. Qed.

(** The run of [compareScreenshots] once both images are loaded. *)
Lemma compareScreenshots_loaded dp ip out thr st design st1 implementation st2 :
  loadPNG dp st = (Normal design, st1) ->
  loadPNG ip st1 = (Normal implementation, st2) ->
  compareScreenshots dp ip out thr st =
  if mismatch design implementation then
    (Throw (new_Error (dimensions_message design implementation)), st2)
  else
    let t := default default_threshold thr in
    let diff := diff_of design implementation t in
    let st3 :=
      log (EvPngWrite diff)
        (log (EvPixelmatch (width design) (height design) t) st2) in
    if truthy out then
      match write_refusal (default "" out) with
      | Some e => (Throw e, log (EvWriteFile (default "" out)) st3)
      | None =>
          (Normal (result_of design implementation t None),
           {| files := <[default "" out := PNG_sync_write diff]> (files st3);
              trace := trace st3 ++ [EvWriteFile (default "" out)] |})
      end
    else
      (Normal (result_of design implementation t
                 (Some (Base64.encode (PNG_sync_write diff)))), st3).
Proof.
  intros H1 H2. unfold compareScreenshots, bind. rewrite H1, H2.
  fold (mismatch design implementation).
  destruct (mismatch design implementation); [reflexivity|].
  unfold emit, diff_of, result_of, writeFile, bind, emit, ret. simpl.
  destruct (pixelmatch _ _ _ _ _) as [n buf]. simpl.
  destruct (truthy out); [|reflexivity]. simpl.
  destruct (write_refusal _); reflexivity.
Qed.

(** What a successful call went through. *)
Lemma compareScreenshots_Normal_inv dp ip out thr st r st' :
  compareScreenshots dp ip out thr st = (Normal r, st') ->
  exists design st1 implementation st2 base64,
    loadPNG dp st = (Normal design, st1)
    /\ loadPNG ip st1 = (Normal implementation, st2)
    /\ mismatch design implementation = false
    /\ r = result_of design implementation (default default_threshold thr) base64.
Proof.
  intros Hrun.
  destruct (loadPNG dp st) as [[design|e1] st1] eqn:H1;
    [|rewrite (compareScreenshots_load1_throws _ _ _ _ _ _ _ H1) in Hrun;
      discriminate].
  destruct (loadPNG ip st1) as [[implementation|e2] st2] eqn:H2;
    [|rewrite (compareScreenshots_load2_throws _ _ _ _ _ _ _ _ _ H1 H2) in Hrun;
      discriminate].
  rewrite (compareScreenshots_loaded _ _ _ _ _ _ _ _ _ H1 H2) in Hrun.
  destruct (mismatch design implementation) eqn:Hm; [discriminate|].
  cbv zeta in Hrun. exists design, st1, implementation, st2.
  destruct (truthy out).
  - destruct (write_refusal _); [discriminate|].
    eexists. inversion Hrun. repeat split; (reflexivity || assumption).
  - eexists. inversion Hrun. repeat split; (reflexivity || assumption).
Qed.

End Runs.

(** ** Loading *)

Section Loading.

Context `{Externals}.

(** C2. [loadPNG] has no existence check of its own: on a path that
    names no file it ends with the error [fs.readFile] throws, node's
    [ENOENT], unclassified; the decoder has not been called by then. *)
Theorem loadPNG_missing_file_raw_error (path : string) (st : State) :
  files st !! path = None ->
  loadPNG path st = (Throw (ENOENT path), log (EvReadFile path) st)
  /\ code (ENOENT path) = Some "ENOENT"
  /\ message (ENOENT path)
     = "ENOENT: no such file or directory, open '" ++ path ++ "'"
  /\ decode_calls (trace (snd (loadPNG path st))) = decode_calls (trace st).
Proof.
  intros Hnone. rewrite loadPNG_eq, Hnone. repeat split.
  simpl. rewrite decode_calls_app. cbn. lia.
Qed.

(** C3. [loadPNG] does not classify what the decoder rejects: when
    [PNG.sync.read] throws on the content of an existing file, that very
    error is what [loadPNG] throws. *)
Theorem loadPNG_undecodable_raw_error
    (path : string) (bytes : list Byte.byte) (e : Error) (st : State) :
  files st !! path = Some bytes ->
  PNG_sync_read bytes = inl e ->
  loadPNG path st
  = (Throw e, log (EvPngRead bytes) (log (EvReadFile path) st)).
Proof.
  intros Hfile Hdecode. rewrite loadPNG_eq, Hfile, Hdecode. reflexivity.
Qed.

End Loading.

(** C2, on the path of the test suite: the message is node's, and
    "File not found" is no part of it. *)
Lemma loadPNG_nonexistent_file_raw_error :
  let path := "/non/existent/file.png" in
  @loadPNG Sample.externals path Sample.two_reds
  = (Throw (ENOENT path), log (EvReadFile path) Sample.two_reds)
  /\ message (ENOENT path)
     = "ENOENT: no such file or directory, open '/non/existent/file.png'"
  /\ includes "File not found" (message (ENOENT path)) = false
  /\ decode_calls
       (trace (snd (@loadPNG Sample.externals path Sample.two_reds))) = 0%nat.
Proof.
  destruct (@loadPNG_missing_file_raw_error Sample.externals
              "/non/existent/file.png" Sample.two_reds)
    as (Hrun & _ & Hmsg & Hcalls); [vm_compute; reflexivity|].
  split; [exact Hrun|]. split; [exact Hmsg|]. split; [reflexivity|].
  exact Hcalls.
Defined.

(** C3, on the text file of the test suite: the error is the decoder's
    own, and its message is not "Unsupported image format". *)
Lemma loadPNG_not_an_image_raw_error :
  let bytes := list_byte_of_string "This is not an image file" in
  exists e,
    @loadPNG Sample.externals "not-an-image.txt" Sample.not_an_image
    = (Throw e,
       log (EvPngRead bytes)
         (log (EvReadFile "not-an-image.txt") Sample.not_an_image))
    /\ message e = "unrecognised content at end of stream"
    /\ includes "Unsupported image format" (message e) = false.
Proof.
  eexists. split.
  - apply (@loadPNG_undecodable_raw_error Sample.externals);
      vm_compute; reflexivity.
  - split; reflexivity.
Defined.

(** ** Comparison *)

Section Comparison.

Context `{Externals}.

Ltac by_loads dp ip st Hrun :=
  let H1 := fresh "Hload1" in
  let H2 := fresh "Hload2" in
  destruct (loadPNG dp st) as [[?design|?e] ?st1] eqn:H1;
  [ match type of H1 with
    | _ = (Normal ?d, ?s1) =>
        destruct (loadPNG ip s1) as [[?implementation|?e] ?st2] eqn:H2;
        [ rewrite (compareScreenshots_loaded dp ip _ _ st d s1 _ _ H1 H2) in Hrun
        | rewrite (compareScreenshots_load2_throws dp ip _ _ st d s1 _ _ H1 H2) in Hrun ]
    end
  | rewrite (compareScreenshots_load1_throws dp ip _ _ st _ _ H1) in Hrun ].

(** C1 (amended). A successful call with a non-empty output path returns
    the three metrics and nothing else, no base64 field and no path
    field; the file at that path holds the encoding of the diff image,
    the image of the design's dimensions that pixelmatch filled for the
    two decoded inputs. A successful call without one returns the metrics
    and the base64 field, which holds the base64 of that same encoding,
    and writes no file. *)
Theorem diff_image_saved_or_returned
    (dp ip : string) (out : option string) (thr : option Q)
    (st st' : State) (r : CompareResult) :
  compareScreenshots dp ip out thr st = (Normal r, st') ->
  exists b1 b2 design implementation,
    files st !! dp = Some b1 /\ PNG_sync_read b1 = inr design
    /\ files st !! ip = Some b2 /\ PNG_sync_read b2 = inr implementation
    /\ (truthy out = true ->
        diffImageBase64 r = None
        /\ keys r = ["totalPixels"; "differentPixels"; "differencePercentage"]
        /\ files st' !! default "" out
           = Some (PNG_sync_write
                     (diff_of design implementation
                        (default default_threshold thr))))
    /\ (truthy out = false ->
        keys r = ["totalPixels"; "differentPixels"; "differencePercentage";
                  "diffImageBase64"]
        /\ files st' = files st
        /\ diffImageBase64 r
           = Some (Base64.encode
                     (PNG_sync_write
                        (diff_of design implementation
                           (default default_threshold thr))))).
Proof.
  intros Hrun.
  destruct (compareScreenshots_Normal_inv _ _ _ _ _ _ _ Hrun)
    as (design & st1 & implementation & st2 & b64 & H1 & H2 & Hm & _).
  rewrite (compareScreenshots_loaded _ _ _ _ _ _ _ _ _ H1 H2), Hm in Hrun.
  cbv zeta in Hrun.
  destruct (loadPNG_frame _ _ _ _ H1) as [F1 _].
  destruct (loadPNG_frame _ _ _ _ H2) as [F2 _].
  rewrite loadPNG_eq in H1.
  destruct (files st !! dp) as [b1|] eqn:E1; [|discriminate].
  destruct (PNG_sync_read b1) as [e1|d] eqn:D1; [discriminate|].
  inversion H1; subst d; clear H1.
  rewrite loadPNG_eq, F1 in H2.
  destruct (files st !! ip) as [b2|] eqn:E2; [|discriminate].
  destruct (PNG_sync_read b2) as [e2|i] eqn:D2; [discriminate|].
  inversion H2; subst i; clear H2.
  exists b1, b2, design, implementation.
  split; [reflexivity|]. split; [exact D1|].
  split; [reflexivity|]. split; [exact D2|].
  destruct (truthy out) eqn:Hout.
  - destruct (write_refusal _); [discriminate|].
    inversion Hrun; subst r st'; clear Hrun.
    split; [intros _ | discriminate].
    repeat split. simpl. apply lookup_insert_eq.
  - inversion Hrun; subst r st'; clear Hrun.
    split; [discriminate | intros _].
    repeat split. simpl. congruence.
Qed.

(** C4. When both images load and their widths or heights differ, the
    call throws the dimension error, whose message holds both pairs of
    dimensions as [WxH]; pixelmatch has not been called and no file has
    changed. *)
Theorem dimension_mismatch_rejected
    (dp ip : string) (out : option string) (thr : option Q)
    (st st1 st2 : State) (design implementation : PNG) :
  loadPNG dp st = (Normal design, st1) ->
  loadPNG ip st1 = (Normal implementation, st2) ->
  width design <> width implementation
  \/ height design <> height implementation ->
  let msg := dimensions_message design implementation in
  compareScreenshots dp ip out thr st = (Throw (new_Error msg), st2)
  /\ pixelmatch_calls (trace st2) = pixelmatch_calls (trace st)
  /\ files st2 = files st
  /\ String.prefix "Image dimensions don't match" msg = true
  /\ includes (dimensions design) msg = true
  /\ includes (dimensions implementation) msg = true.
Proof.
  intros H1 H2 Hdiff msg.
  rewrite (compareScreenshots_loaded _ _ _ _ _ _ _ _ _ H1 H2).
  apply mismatch_true in Hdiff. rewrite Hdiff.
  destruct (loadPNG_frame _ _ _ _ H1) as [F1 P1].
  destruct (loadPNG_frame _ _ _ _ H2) as [F2 P2].
  split; [reflexivity|]. split; [congruence|]. split; [congruence|].
  split; [reflexivity|]. subst msg. unfold dimensions_message. split.
  - apply (includes_intro _ _ "Image dimensions don't match: design ("
             (") vs implementation (" ++ dimensions implementation ++ ")")).
    unfold dimensions. rewrite !append_assoc'. reflexivity.
  - apply (includes_intro _ _
             ("Image dimensions don't match: design (" ++ dimensions design
              ++ ") vs implementation (") ")").
    unfold dimensions. rewrite !append_assoc'. reflexivity.
Qed.

(** The policy the spec asks of a run for an out-of-range threshold: the
    call was rejected, or every threshold pixelmatch received lies in 0..1. *)
Definition clamped_or_rejected (run : completion CompareResult * State) : Prop :=
  is_throw run = true
  \/ forall w h t,
       In (EvPixelmatch w h t) (trace (snd run)) -> (0 <= t)%Q /\ (t <= 1)%Q.

(** C5 (amended). [compareScreenshots] has no range check: pixelmatch
    receives the threshold as given (0.1 when none is given), and whether
    the call throws does not depend on the threshold. *)
Theorem threshold_passed_unchanged
    (dp ip : string) (out : option string) (thr : option Q) (st : State) :
  let run := compareScreenshots dp ip out thr st in
  (forall w h t,
     In (EvPixelmatch w h t) (trace (snd run)) ->
     In (EvPixelmatch w h t) (trace st) \/ t = default default_threshold thr)
  /\ (is_throw run = false ->
      exists w h,
        In (EvPixelmatch w h (default default_threshold thr)) (trace (snd run)))
  /\ (forall thr', is_throw (compareScreenshots dp ip out thr' st) = is_throw run).
Proof.
  intros run. subst run.
  destruct (loadPNG dp st) as [[design|e1] st1] eqn:H1.
  2:{ setoid_rewrite (compareScreenshots_load1_throws dp ip out _ st e1 st1 H1).
      repeat split; simpl; try discriminate.
      intros w h t Hin. left. exact (loadPNG_no_pixelmatch _ _ _ _ _ _ _ H1 Hin). }
  destruct (loadPNG ip st1) as [[implementation|e2] st2] eqn:H2.
  2:{ setoid_rewrite
        (compareScreenshots_load2_throws dp ip out _ st design st1 e2 st2 H1 H2).
      repeat split; simpl; try discriminate.
      intros w h t Hin. left.
      eapply loadPNG_no_pixelmatch; [exact H1|].
      eapply loadPNG_no_pixelmatch; [exact H2| exact Hin]. }
  setoid_rewrite
    (compareScreenshots_loaded dp ip out _ st design st1 implementation st2 H1 H2).
  assert (Hloads : forall w h t,
             In (EvPixelmatch w h t) (trace st2) -> In (EvPixelmatch w h t) (trace st)).
  { intros w h t Hin. eapply loadPNG_no_pixelmatch; [exact H1|].
    eapply loadPNG_no_pixelmatch; [exact H2| exact Hin]. }
  destruct (mismatch design implementation).
  { repeat split; simpl; try discriminate. intros w h t Hin. left. auto. }
  cbv zeta. destruct (truthy out).
  - destruct (write_refusal (default "" out)).
    + repeat split; simpl; try discriminate.
      intros w h t Hin. rewrite !in_app_iff in Hin. simpl in Hin.
      intuition (try discriminate; try congruence; auto).
    + repeat split; simpl.
      * intros w h t Hin. rewrite !in_app_iff in Hin. simpl in Hin.
        intuition (try discriminate; try congruence; auto).
      * intros _. do 2 eexists. rewrite !in_app_iff. simpl. eauto 10.
  - repeat split; simpl.
    + intros w h t Hin. rewrite !in_app_iff in Hin. simpl in Hin.
      intuition (try discriminate; try congruence; auto).
    + intros _. do 2 eexists. rewrite !in_app_iff. simpl. eauto 10.
Qed.

(** C6 (amended). The stored percentage of a successful comparison is
    [(differentPixels / totalPixels) * 100] as JavaScript evaluates it,
    with no guard. When there are pixels it is the quotient of the two
    counts rounded to binary64, times 100, rounded again; for a count
    that does not exceed the total both roundings are finite. When
    [totalPixels] is 0 it is [NaN] for a count of 0, and [Infinity] for
    any other count: never 0. *)
Theorem percentage_is_unguarded_quotient
    (dp ip : string) (out : option string) (thr : option Q)
    (st st' : State) (r : CompareResult) :
  compareScreenshots dp ip out thr st = (Normal r, st') ->
  differencePercentage r
  = num_mul (num_div (of_N (differentPixels r)) (of_N (totalPixels r)))
            (Finite 100)
  /\ (totalPixels r <> 0%N ->
      forall q,
        binary64 (inject_Z (Z.of_N (differentPixels r))
                  / inject_Z (Z.of_N (totalPixels r))) = Finite q ->
        differencePercentage r = binary64 (q * 100))
  /\ (totalPixels r <> 0%N ->
      (differentPixels r <= totalPixels r)%N ->
      exists q v,
        binary64 (inject_Z (Z.of_N (differentPixels r))
                  / inject_Z (Z.of_N (totalPixels r))) = Finite q
        /\ binary64 (q * 100) = Finite v
        /\ differencePercentage r = Finite v)
  /\ (totalPixels r = 0%N ->
      (differentPixels r = 0%N -> differencePercentage r = NaN)
      /\ (differentPixels r <> 0%N -> differencePercentage r = PosInfinity)).
Proof.
  intros Hrun.
  assert (Hpct : differencePercentage r
                 = num_mul (num_div (of_N (differentPixels r))
                                    (of_N (totalPixels r))) (Finite 100)).
  { by_loads dp ip st Hrun; try discriminate.
    destruct (mismatch design implementation); [discriminate|].
    cbv zeta in Hrun. destruct (truthy out).
    - destruct (write_refusal _); [discriminate|]. now inversion Hrun.
    - now inversion Hrun. }
  split; [exact Hpct|]. rewrite Hpct. split; [|split].
  - intros Hpos q Hq. unfold of_N, num_div.
    destruct (Qeq_bool (inject_Z (Z.of_N (totalPixels r))) 0) eqn:Hz.
    + apply Qeq_bool_eq in Hz. unfold Qeq in Hz. simpl in Hz. lia.
    + rewrite Hq. reflexivity.
  - intros Hpos Hle.
    destruct (percentage_in_range _ _ Hle Hpos)
      as (q & v & Hq & Hv & Hpercent & _).
    exists q, v. split; [exact Hq|]. split; [exact Hv | exact Hpercent].
  - intros Hzero. rewrite Hzero. unfold of_N, num_div. simpl.
    split; intros Hcount.
    + rewrite Hcount. reflexivity.
    + destruct (differentPixels r); [congruence | reflexivity].
Qed.

End Comparison.

(** C1 (counterexample). With the output path [diff.png] the call
    succeeds and its result has the three metrics only: neither a path
    field nor the base64 field. *)
Lemma output_path_result_lacks_both_fields :
  exists r st',
    @compareScreenshots Sample.externals "design.png" "implementation.png"
      (Some "diff.png") None Sample.red_and_blue = (Normal r, st')
    /\ keys r = ["totalPixels"; "differentPixels"; "differencePercentage"]
    /\ ~ In "diffImagePath" (keys r)
    /\ ~ In "diffImageBase64" (keys r).
Proof.
  eexists. eexists. split; [vm_compute; reflexivity|].
  split; [reflexivity|]. split; simpl; intuition discriminate.
Defined.

(** C1, on a red and a blue image with the output path [diff.png]: the
    file holds the encoding of four marker pixels. *)
Lemma diff_image_saved_to_diff_png :
  exists r st',
    @compareScreenshots Sample.externals "design.png" "implementation.png"
      (Some "diff.png") None Sample.red_and_blue = (Normal r, st')
    /\ diffImageBase64 r = None
    /\ files st' !! "diff.png"
       = Some (Sample.write
                 {| width := 2; height := 2;
                    data := concat (repeat (Comparator.channels Sample.red) 4) |}).
Proof.
  pose proof (@diff_image_saved_or_returned Sample.externals
                "design.png" "implementation.png" (Some "diff.png") None
                Sample.red_and_blue) as Hthm.
  eexists. eexists. split; [vm_compute; reflexivity|].
  edestruct Hthm
    as (b1 & b2 & design & implementation & F1 & D1 & F2 & D2 & Hsaved & _);
    [vm_compute; reflexivity|].
  destruct (Hsaved eq_refl) as (Hnone & _ & Hfile).
  split; [exact Hnone|]. refine (eq_trans Hfile _).
  vm_compute in F1. injection F1 as <-.
  vm_compute in F2. injection F2 as <-.
  vm_compute in D1. injection D1 as <-.
  vm_compute in D2. injection D2 as <-.
  vm_compute. reflexivity.
Defined.

(** C4, on the fixtures of the test suite: a 10x10 image against a 20x20
    one. *)
Lemma mismatch_10x10_20x20 :
  exists msg st',
    @compareScreenshots Sample.externals "size1.png" "size2.png" None None
      Sample.sizes = (Throw (new_Error msg), st')
    /\ pixelmatch_calls (trace st') = 0%nat
    /\ includes "10x10" msg = true
    /\ includes "20x20" msg = true.
Proof.
  edestruct (@dimension_mismatch_rejected Sample.externals
               "size1.png" "size2.png" None None Sample.sizes)
    as (Hrun & Hcalls & _ & _ & Hdesign & Himpl);
    [vm_compute; reflexivity | vm_compute; reflexivity
    | left; vm_compute; discriminate |].
  eexists. eexists. split; [exact Hrun|].
  split; [exact Hcalls|]. split; [exact Hdesign | exact Himpl].
Defined.

(** C5 (counterexample). Threshold 2 is out of range; the call is not
    rejected, and pixelmatch receives 2, not a value clamped into 0..1. *)
Lemma threshold_2_neither_clamped_nor_rejected :
  ~ clamped_or_rejected
      (@compareScreenshots Sample.externals "design.png" "implementation.png"
         None (Some 2%Q) Sample.red_and_blue).
Proof.
  intros [Hthrow | Hrange].
  - vm_compute in Hthrow. discriminate.
  - destruct (Hrange 2%N 2%N 2%Q) as [_ Hle].
    + vm_compute. do 4 right. left. reflexivity.
    + vm_compute in Hle. apply Hle. reflexivity.
Qed.

(** C6 (counterexample). Two images of no pixels compare successfully
    with [totalPixels] 0, and the stored percentage is [NaN], not 0. *)
Lemma zero_pixels_percentage_is_NaN :
  exists r st',
    @compareScreenshots Sample.externals "design.png" "implementation.png"
      None None Sample.empty_images = (Normal r, st')
    /\ totalPixels r = 0%N
    /\ differencePercentage r = NaN
    /\ ~ num_is_zero (differencePercentage r).
Proof.
  eexists. eexists. split; [vm_compute; reflexivity|].
  split; [reflexivity|]. split; [reflexivity|]. simpl. tauto.
Qed.

(** C6, on two images that differ in 7 pixels of 100: the stored value is
    7.000000000000001, the binary64 result of [7 / 100 * 100], not 7. *)
Lemma percentage_of_seven_in_hundred :
  exists r st',
    @compareScreenshots Sample.externals "design.png" "implementation.png"
      None None Sample.seven_of_hundred = (Normal r, st')
    /\ differentPixels r = 7%N
    /\ totalPixels r = 100%N
    /\ differencePercentage r
       = Finite (7881299347898369 # 1125899906842624)%Q.
Proof.
  pose proof (@percentage_is_unguarded_quotient Sample.externals
                "design.png" "implementation.png" None None
                Sample.seven_of_hundred) as Hthm.
  eexists. eexists. split; [vm_compute; reflexivity|].
  edestruct Hthm as (_ & Hquot & _); [vm_compute; reflexivity|].
  split; [reflexivity|]. split; [reflexivity|].
  etransitivity;
    [apply Hquot; [discriminate | vm_compute; reflexivity]
    | vm_compute; reflexivity].
Defined.

(** ** The request handler *)

Section Routing.

Context `{Externals}.

(** C10. A request for any tool other than [compare_design] makes the
    handler throw "Unknown tool: <name>"; a failure of
    [compareScreenshots] is caught and returned as a response flagged
    [isError] that carries the error's message; and a response flagged
    [isError] comes from nowhere else. *)
Theorem unknown_tool_throws_comparison_failure_wrapped
    (request : CallToolRequest) (st : State) :
  (name request <> "compare_design" ->
   CallTool_handler request st
   = (Throw (new_Error ("Unknown tool: " ++ name request)), st))
  /\ (forall args e st',
        name request = "compare_design" ->
        arguments request = Some args ->
        compareScreenshots (design_path args) (implementation_path args)
          (output_diff_path args)
          (Some (default default_threshold (threshold args))) st
        = (Throw e, st') ->
        CallTool_handler request st
        = (Normal {| content :=
                       [TextContent ("Error comparing screenshots: "
                                     ++ message e)];
                     isError := Some true |}, st'))
  /\ (forall result st',
        CallTool_handler request st = (Normal result, st') ->
        isError result = Some true ->
        name request = "compare_design"
        /\ exists args e,
             arguments request = Some args
             /\ compareScreenshots (design_path args) (implementation_path args)
                  (output_diff_path args)
                  (Some (default default_threshold (threshold args))) st
                = (Throw e, st')
             /\ content result
                = [TextContent ("Error comparing screenshots: " ++ message e)]).
Proof.
  unfold CallTool_handler. split; [|split].
  - intros Hname. apply String.eqb_neq in Hname. now rewrite Hname.
  - intros args e st' Hname Hargs Hrun.
    apply String.eqb_eq in Hname. rewrite Hname, Hargs.
    unfold try_catch, bind. now rewrite Hrun.
  - intros result st' Hrun Herr.
    destruct (String.eqb (name request) "compare_design") eqn:Hname;
      [|discriminate].
    apply String.eqb_eq in Hname. split; [exact Hname|].
    destruct (arguments request) as [args|]; [|discriminate].
    exists args. unfold try_catch, bind in Hrun.
    destruct (compareScreenshots _ _ _ _ st) as [[r|e] st1] eqn:Hcompare.
    + inversion Hrun; subst. discriminate.
    + exists e. inversion Hrun; subst. repeat split.
Qed.

End Routing.

(** The handler on an unknown tool, and on a design file that is missing. *)
Example unknown_tool_request :
  @CallTool_handler Sample.externals
    {| name := "resize_image"; arguments := None |} Sample.two_reds
  = (Throw (new_Error "Unknown tool: resize_image"), Sample.two_reds).
Proof. reflexivity. Qed.

Example missing_design_request :
  fst (@CallTool_handler Sample.externals
         {| name := "compare_design";
            arguments := Some {| design_path := "missing.png";
                                 implementation_path := "implementation.png";
                                 output_diff_path := None;
                                 threshold := None |} |} Sample.two_reds)
  = Normal
      {| content :=
           [TextContent
              "Error comparing screenshots: ENOENT: no such file or directory, open 'missing.png'"];
         isError := Some true |}.
Proof. vm_compute. reflexivity. Qed.

(** ** Comparison with the comparator of the spec *)

Section Counting.

Context {A : Type}.

Lemma filter_none (f : A -> bool) (l : list A) :
  (forall x, f x = false) -> List.filter f l = [].
Proof.
  intros Hf. induction l as [|x l IH]; simpl; [reflexivity|].
  now rewrite Hf.
Qed.

Lemma filter_length_mono (f g : A -> bool) (l : list A) :
  (forall x, f x = true -> g x = true) ->
  (length (List.filter f l) <= length (List.filter g l))%nat.
Proof.
  intros Hfg. induction l as [|x l IH]; simpl; [lia|].
  destruct (f x) eqn:Hfx.
  - rewrite (Hfg x Hfx). simpl. lia.
  - destruct (g x); simpl; lia.
Qed.

Lemma filter_length_bound (f : A -> bool) (l : list A) :
  (length (List.filter f l) <= length l)%nat.
Proof.
  induction l as [|x l IH]; simpl; [lia|]. destruct (f x); simpl; lia.
Qed.

End Counting.

Section ComparatorFacts.

Context `{Comparator.Metric}.

Lemma compare_count_bound a b w h t :
  (fst (Comparator.compare a b w h t) <= w * h)%N.
Proof.
  unfold Comparator.compare, Comparator.positions. simpl.
  pose proof (filter_length_bound (Comparator.differs t a b)
                (seq 0 (N.to_nat (w * h)))) as Hle.
  rewrite length_seq in Hle. lia.
Qed.

Lemma compare_same a w h t :
  (0 <= t)%Q -> (t <= 1)%Q -> fst (Comparator.compare a a w h t) = 0%N.
Proof.
  intros H0 H1. unfold Comparator.compare. simpl.
  rewrite filter_none; [reflexivity|].
  intros i. unfold Comparator.differs. apply negb_false_iff.
  apply Qle_bool_iff. rewrite Comparator.distance_same.
  now apply Comparator.limit_nonneg.
Qed.

Lemma compare_antitone a b w h t1 t2 :
  (0 <= t1)%Q -> (t1 <= t2)%Q -> (t2 <= 1)%Q ->
  (fst (Comparator.compare a b w h t2) <= fst (Comparator.compare a b w h t1))%N.
Proof.
  intros H0 H12 H1. unfold Comparator.compare. simpl.
  pose proof (filter_length_mono (Comparator.differs t2 a b)
                (Comparator.differs t1 a b) (Comparator.positions w h)) as Hmono.
  enough (Hpoint : forall i, Comparator.differs t2 a b i = true ->
                             Comparator.differs t1 a b i = true)
    by (specialize (Hmono Hpoint); lia).
  intros i. unfold Comparator.differs. rewrite !negb_true_iff.
  intros Hfar. destruct (Qle_bool _ (Comparator.limit t1)) eqn:Hnear;
    [|reflexivity].
  apply Qle_bool_iff in Hnear.
  assert (Hle : Qle_bool (Comparator.distance (Comparator.pixel_at a i)
                            (Comparator.pixel_at b i))
                  (Comparator.limit t2) = true).
  { apply Qle_bool_iff. eapply Qle_trans; [exact Hnear|].
    now apply Comparator.limit_mono. }
  congruence.
Qed.

End ComparatorFacts.

Section WithComparator.

Context `{Externals} `{Comparator.Metric}.

(** The program's pixelmatch behaves as the comparator of the spec. *)
Hypothesis pixelmatch_compare :
  forall a b w h t, pixelmatch a b w h t = Comparator.compare a b w h t.

(** C7. When both paths load the same raster, of at least one pixel, and
    the threshold lies in 0..1, every result of the call has
    [differentPixels] 0 and [differencePercentage] 0; and the call does
    return a result unless the write to the output path is refused. *)
Theorem identical_images_no_difference
    (dp ip : string) (out : option string) (thr : option Q)
    (st st1 st2 : State) (img : PNG) :
  loadPNG dp st = (Normal img, st1) ->
  loadPNG ip st1 = (Normal img, st2) ->
  (0 < width img)%N -> (0 < height img)%N ->
  (0 <= default default_threshold thr)%Q ->
  (default default_threshold thr <= 1)%Q ->
  (forall r st',
     compareScreenshots dp ip out thr st = (Normal r, st') ->
     differentPixels r = 0%N /\ num_is_zero (differencePercentage r))
  /\ (truthy out = false \/ write_refusal (default "" out) = None ->
      exists r st', compareScreenshots dp ip out thr st = (Normal r, st')).
Proof.
  intros H1 H2 Hw Hh Ht0 Ht1.
  rewrite (compareScreenshots_loaded _ _ _ _ _ _ _ _ _ H1 H2).
  assert (Hm : mismatch img img = false) by (apply mismatch_false; tauto).
  rewrite Hm. cbv zeta.
  assert (Hres : forall b64,
             differentPixels (result_of img img (default default_threshold thr) b64)
             = 0%N
             /\ num_is_zero
                  (differencePercentage
                     (result_of img img (default default_threshold thr) b64))).
  { intros b64. unfold result_of. simpl.
    rewrite pixelmatch_compare, compare_same by assumption.
    split; [reflexivity|]. unfold of_N, num_div.
    destruct (Qeq_bool (inject_Z (Z.of_N (width img * height img))) 0) eqn:Hz.
    - apply Qeq_bool_eq in Hz. unfold Qeq in Hz. simpl in Hz. lia.
    - simpl. unfold Qeq. simpl. reflexivity. }
  split.
  - intros r st' Hrun. destruct (truthy out).
    + destruct (write_refusal _); [discriminate|].
      inversion Hrun; subst. apply Hres.
    + inversion Hrun; subst. apply Hres.
  - intros [Hout | Hwrite].
    + rewrite Hout. eauto.
    + destruct (truthy out); [rewrite Hwrite|]; eauto.
Qed.

(** C8 (amended). For thresholds [t1 <= t2] in 0..1 and the same two
    files, the call with the higher threshold reports no more different
    pixels than the call with the lower one. *)
Theorem higher_threshold_no_more_different_pixels
    (dp ip : string) (out : option string) (t1 t2 : Q)
    (st st1' st2' : State) (r1 r2 : CompareResult) :
  (0 <= t1)%Q -> (t1 <= t2)%Q -> (t2 <= 1)%Q ->
  compareScreenshots dp ip out (Some t1) st = (Normal r1, st1') ->
  compareScreenshots dp ip out (Some t2) st = (Normal r2, st2') ->
  (differentPixels r2 <= differentPixels r1)%N.
Proof.
  intros Hlow Hle Hhigh Hrun1 Hrun2.
  apply compareScreenshots_Normal_inv in Hrun1
    as (design & s1 & implementation & s2 & b1 & L1 & L2 & _ & ->).
  apply compareScreenshots_Normal_inv in Hrun2
    as (design' & s1' & implementation' & s2' & b2 & L1' & L2' & _ & ->).
  rewrite L1 in L1'. inversion L1'; subst design' s1'.
  rewrite L2 in L2'. inversion L2'; subst implementation' s2'.
  unfold result_of. simpl. rewrite !pixelmatch_compare.
  now apply compare_antitone.
Qed.

(** C9 (amended). Every result of a successful comparison has
    [0 <= differentPixels <= totalPixels], where [totalPixels] is the width
    times the height of the design image; and when [totalPixels] is not 0,
    [0 <= differencePercentage <= 100]. *)
Theorem different_pixels_and_percentage_bounded
    (dp ip : string) (out : option string) (thr : option Q)
    (st st' : State) (r : CompareResult) :
  compareScreenshots dp ip out thr st = (Normal r, st') ->
  (0 <= differentPixels r)%N
  /\ (differentPixels r <= totalPixels r)%N
  /\ (exists design st1,
        loadPNG dp st = (Normal design, st1)
        /\ totalPixels r = (width design * height design)%N)
  /\ (totalPixels r <> 0%N ->
      num_le (Finite 0) (differencePercentage r)
      /\ num_le (differencePercentage r) (Finite 100)).
Proof.
  intros Hrun.
  apply compareScreenshots_Normal_inv in Hrun
    as (design & s1 & implementation & s2 & b64 & L1 & L2 & _ & ->).
  assert (Hle : (differentPixels
                   (result_of design implementation
                      (default default_threshold thr) b64)
                 <= width design * height design)%N).
  { unfold result_of. simpl. rewrite pixelmatch_compare.
    apply compare_count_bound. }
  split; [lia|]. split; [exact Hle|]. split; [eauto|].
  intros Hpos. unfold result_of in *.
  cbn [totalPixels differentPixels differencePercentage] in *.
  destruct (percentage_in_range _ _ Hle Hpos)
    as (q & v & _ & _ & Hpercent & Hv0 & Hv100).
  rewrite Hpercent. simpl. split; assumption.
Qed.

End WithComparator.

(** The sample pixelmatch is the comparator of the spec with the sample
    metric. *)
Lemma sample_pixelmatch_compare :
  forall a b w h t,
    @pixelmatch Sample.externals a b w h t
    = @Comparator.compare Sample.metric a b w h t.
Proof. reflexivity. Qed.

(** C7, on two identical red images with the default threshold. *)
Lemma identical_reds_no_difference :
  exists r st',
    @compareScreenshots Sample.externals "design.png" "implementation.png"
      None None Sample.two_reds = (Normal r, st')
    /\ differentPixels r = 0%N
    /\ num_is_zero (differencePercentage r).
Proof.
  edestruct (@identical_images_no_difference Sample.externals Sample.metric
               sample_pixelmatch_compare "design.png" "implementation.png"
               None None Sample.two_reds) as [Hall Hsome].
  - vm_compute. reflexivity.
  - vm_compute. reflexivity.
  - vm_compute. reflexivity.
  - vm_compute. reflexivity.
  - vm_compute. discriminate.
  - vm_compute. discriminate.
  - destruct Hsome as (r & st' & Hrun); [left; reflexivity|].
    exists r, st'. split; [exact Hrun | exact (Hall r st' Hrun)].
Defined.

(** C8, on a red and a blue image with thresholds 0.1 and 1. *)
Lemma red_and_blue_thresholds :
  exists r1 r2 st1 st2,
    @compareScreenshots Sample.externals "design.png" "implementation.png"
      None (Some (1 # 10)%Q) Sample.red_and_blue = (Normal r1, st1)
    /\ @compareScreenshots Sample.externals "design.png" "implementation.png"
         None (Some 1%Q) Sample.red_and_blue = (Normal r2, st2)
    /\ (differentPixels r2 <= differentPixels r1)%N.
Proof.
  do 4 eexists. split; [vm_compute; reflexivity|].
  split; [vm_compute; reflexivity|].
  eapply (@higher_threshold_no_more_different_pixels Sample.externals
            Sample.metric sample_pixelmatch_compare
            "design.png" "implementation.png" None (1 # 10)%Q 1%Q
            Sample.red_and_blue);
    try (vm_compute; reflexivity); vm_compute; discriminate.
Defined.

(** C8 (counterexample). Nothing keeps the threshold in 0..1, and below 0
    the order is lost: with a bound that is the square of the threshold,
    as pixelmatch computes it, raising the threshold from -1 to 0 takes
    the count for a red and a darker red image from 0 to 4. *)
Lemma raising_negative_threshold_adds_different_pixels :
  exists r1 r2 st1 st2,
    @compareScreenshots Sample.externals "design.png" "implementation.png"
      None (Some (-1)%Q) Sample.red_and_dark_red = (Normal r1, st1)
    /\ @compareScreenshots Sample.externals "design.png" "implementation.png"
         None (Some 0%Q) Sample.red_and_dark_red = (Normal r2, st2)
    /\ (-1 <= 0)%Q
    /\ differentPixels r1 = 0%N
    /\ differentPixels r2 = 4%N
    /\ (differentPixels r1 < differentPixels r2)%N.
Proof.
  do 4 eexists. split; [vm_compute; reflexivity|].
  split; [vm_compute; reflexivity|].
  split; [discriminate|]. split; [reflexivity|]. split; reflexivity.
Qed.

(** C9 (counterexample). Two images of no pixels compare successfully and
    the stored percentage is [NaN], for which [0 <= differencePercentage]
    is false. *)
Lemma zero_pixels_percentage_not_in_range :
  exists r st',
    @compareScreenshots Sample.externals "design.png" "implementation.png"
      None None Sample.empty_images = (Normal r, st')
    /\ (differentPixels r <= totalPixels r)%N
    /\ ~ num_le (Finite 0) (differencePercentage r).
Proof.
  eexists. eexists. split; [vm_compute; reflexivity|].
  split; [vm_compute; discriminate | simpl; tauto].
Qed.

(** C9, on a red and a blue image of four pixels. *)
Lemma red_and_blue_bounded :
  exists r st',
    @compareScreenshots Sample.externals "design.png" "implementation.png"
      None None Sample.red_and_blue = (Normal r, st')
    /\ (differentPixels r <= totalPixels r)%N
    /\ num_le (Finite 0) (differencePercentage r)
    /\ num_le (differencePercentage r) (Finite 100).
Proof.
  pose proof (@different_pixels_and_percentage_bounded Sample.externals
                Sample.metric sample_pixelmatch_compare
                "design.png" "implementation.png" None None
                Sample.red_and_blue) as Hthm.
  eexists. eexists. split; [vm_compute; reflexivity|].
  edestruct Hthm as (_ & Hle & _ & Hpct); [vm_compute; reflexivity|].
  split; [exact Hle|]. apply Hpct. discriminate.
Defined.

(** * Further properties of [src/index.ts] *)

(** ** What a comparison ends with *)

Section Outcomes.

Context `{Externals}.

(** What [loadPNG] ends with, given what its path holds. *)
Definition load_outcome (path : string) (held : option (list Byte.byte))
    : completion PNG :=
  match held with
  | None => Throw (ENOENT path)
  | Some bytes =>
      match PNG_sync_read bytes with
      | inr png => Normal png
      | inl e => Throw e
      end
  end.

(** What [compareScreenshots] ends with, given what its two paths hold. *)
Definition comparison_outcome (dp ip : string) (out : option string)
    (thr : option Q) (held1 held2 : option (list Byte.byte))
    : completion CompareResult :=
  match load_outcome dp held1 with
  | Throw e => Throw e
  | Normal design =>
      match load_outcome ip held2 with
      | Throw e => Throw e
      | Normal implementation =>
          if mismatch design implementation
          then Throw (new_Error (dimensions_message design implementation))
          else
            let t := default default_threshold thr in
            if truthy out then
              match write_refusal (default "" out) with
              | Some e => Throw e
              | None => Normal (result_of design implementation t None)
              end
            else
              Normal (result_of design implementation t
                        (Some (Base64.encode
                                 (PNG_sync_write
                                    (diff_of design implementation t)))))
      end
  end.

Lemma loadPNG_outcome (path : string) (st : State) :
  fst (loadPNG path st) = load_outcome path (files st !! path).
Proof.
  rewrite loadPNG_eq. unfold load_outcome.
  destruct (files st !! path) as [bytes|]; [|reflexivity].
  destruct (PNG_sync_read bytes); reflexivity.
Qed.

Lemma compareScreenshots_outcome dp ip out thr st :
  fst (compareScreenshots dp ip out thr st)
  = comparison_outcome dp ip out thr (files st !! dp) (files st !! ip).
Proof.
  unfold comparison_outcome. rewrite <- (loadPNG_outcome dp st).
  destruct (loadPNG dp st) as [[design|e1] st1] eqn:H1; simpl.
  2:{ now rewrite (compareScreenshots_load1_throws _ _ _ _ _ _ _ H1). }
  destruct (loadPNG_frame _ _ _ _ H1) as [F1 _]. rewrite <- F1.
  rewrite <- (loadPNG_outcome ip st1).
  destruct (loadPNG ip st1) as [[implementation|e2] st2] eqn:H2; simpl.
  2:{ now rewrite (compareScreenshots_load2_throws _ _ _ _ _ _ _ _ _ H1 H2). }
  rewrite (compareScreenshots_loaded _ _ _ _ _ _ _ _ _ H1 H2).
  destruct (mismatch design implementation); [reflexivity|].
  cbv zeta. destruct (truthy out); [|reflexivity].
  destruct (write_refusal _); reflexivity.
Qed.

(** The files after a call: as before, or as before with the output path
    set, the latter only when the call returned and was given a path. *)
Lemma compareScreenshots_files dp ip out thr st :
  files (snd (compareScreenshots dp ip out thr st)) = files st
  \/ (truthy out = true
      /\ is_throw (compareScreenshots dp ip out thr st) = false
      /\ exists diff,
           files (snd (compareScreenshots dp ip out thr st))
           = <[default "" out := PNG_sync_write diff]> (files st)).
Proof.
  destruct (loadPNG dp st) as [[design|e1] st1] eqn:H1.
  2:{ rewrite (compareScreenshots_load1_throws _ _ _ _ _ _ _ H1). left.
      apply (loadPNG_frame _ _ _ _ H1). }
  destruct (loadPNG_frame _ _ _ _ H1) as [F1 _].
  destruct (loadPNG ip st1) as [[implementation|e2] st2] eqn:H2.
  2:{ rewrite (compareScreenshots_load2_throws _ _ _ _ _ _ _ _ _ H1 H2). left.
      simpl. destruct (loadPNG_frame _ _ _ _ H2) as [F2 _]. congruence. }
  destruct (loadPNG_frame _ _ _ _ H2) as [F2 _].
  rewrite (compareScreenshots_loaded _ _ _ _ _ _ _ _ _ H1 H2).
  destruct (mismatch design implementation); [left; simpl; congruence|].
  cbv zeta. destruct (truthy out).
  - destruct (write_refusal _); [left; simpl; congruence|].
    right. split; [reflexivity|]. split; [reflexivity|].
    eexists. simpl. now rewrite F2, F1.
  - left. simpl. congruence.
Qed.

(** X1. Whatever its outcome, a call changes no file other than the one
    at the output path; it changes no file at all when it is given no
    output path, and none when it throws. *)
Theorem only_the_output_path_is_written
    (dp ip : string) (out : option string) (thr : option Q) (st : State) :
  (forall p, p <> default "" out ->
     files (snd (compareScreenshots dp ip out thr st)) !! p = files st !! p)
  /\ (truthy out = false ->
      files (snd (compareScreenshots dp ip out thr st)) = files st)
  /\ (is_throw (compareScreenshots dp ip out thr st) = true ->
      files (snd (compareScreenshots dp ip out thr st)) = files st).
Proof.
  destruct (compareScreenshots_files dp ip out thr st)
    as [Hsame | (Hout & Hret & diff & Hset)].
  - rewrite Hsame. repeat split; reflexivity.
  - rewrite Hset, Hout, Hret. split; [|split]; try discriminate.
    intros p Hp. now apply lookup_insert_ne.
Qed.

Lemma readFile_outcome (path : string) (st : State) :
  fst (readFile path st)
  = match files st !! path with
    | Some bytes => Normal bytes
    | None => Throw (ENOENT path)
    end.
Proof.
  unfold readFile, bind, emit. simpl.
  destruct (files st !! path); reflexivity.
Qed.

(** X2. A call that throws throws one of: the error of the failed read
    of the design or of the implementation, the decoder's error on what
    one of the two reads returned, the dimension error for the two images
    that were loaded, or the refusal of the write to the output path. *)
Theorem thrown_error_origin
    (dp ip : string) (out : option string) (thr : option Q)
    (st st' : State) (e : Error) :
  compareScreenshots dp ip out thr st = (Throw e, st') ->
  fst (readFile dp st) = Throw e
  \/ fst (readFile ip st) = Throw e
  \/ (exists bytes,
        (fst (readFile dp st) = Normal bytes
         \/ fst (readFile ip st) = Normal bytes)
        /\ PNG_sync_read bytes = inl e)
  \/ (exists design implementation,
        fst (loadPNG dp st) = Normal design
        /\ fst (loadPNG ip st) = Normal implementation
        /\ (width design <> width implementation
            \/ height design <> height implementation)
        /\ e = new_Error (dimensions_message design implementation))
  \/ (truthy out = true /\ write_refusal (default "" out) = Some e).
Proof.
  intros Hrun.
  pose proof (compareScreenshots_outcome dp ip out thr st) as Hout.
  rewrite Hrun in Hout. simpl in Hout. unfold comparison_outcome in Hout.
  rewrite !readFile_outcome, !loadPNG_outcome.
  unfold load_outcome in *.
  destruct (files st !! dp) as [b1|]; [|left; congruence].
  destruct (PNG_sync_read b1) as [e1|design] eqn:D1.
  { do 2 right. left. exists b1. split; [now left | congruence]. }
  destruct (files st !! ip) as [b2|]; [|right; left; congruence].
  destruct (PNG_sync_read b2) as [e2|implementation] eqn:D2.
  { do 2 right. left. exists b2. split; [now right | congruence]. }
  destruct (mismatch design implementation) eqn:Hm.
  { do 3 right. left. exists design, implementation.
    split; [reflexivity|]. split; [reflexivity|].
    split; [now apply mismatch_true | congruence]. }
  cbv zeta in Hout. destruct (truthy out); [|discriminate].
  destruct (write_refusal _) as [e'|]; [|discriminate].
  do 4 right. split; congruence.
Qed.

(** X3. When both paths hold content the decoder accepts, the two images
    have the same dimensions, and either no output path is given or the
    write to it is not refused, the call returns a result: the count
    pixelmatch gave, out of width times height pixels. *)
Theorem comparison_returns
    (dp ip : string) (out : option string) (thr : option Q) (st : State)
    (b1 b2 : list Byte.byte) (design implementation : PNG) :
  files st !! dp = Some b1 -> PNG_sync_read b1 = inr design ->
  files st !! ip = Some b2 -> PNG_sync_read b2 = inr implementation ->
  width design = width implementation ->
  height design = height implementation ->
  truthy out = false \/ write_refusal (default "" out) = None ->
  exists r st',
    compareScreenshots dp ip out thr st = (Normal r, st')
    /\ totalPixels r = (width design * height design)%N
    /\ differentPixels r
       = fst (pixelmatch (data design) (data implementation)
                (width design) (height design)
                (default default_threshold thr)).
Proof.
  intros F1 D1 F2 D2 Hw Hh Hwrite.
  pose proof (compareScreenshots_outcome dp ip out thr st) as Hout.
  unfold comparison_outcome, load_outcome in Hout.
  rewrite F1, D1, F2, D2 in Hout.
  assert (Hm : mismatch design implementation = false)
    by (apply mismatch_false; tauto).
  rewrite Hm in Hout. cbv zeta in Hout.
  destruct (compareScreenshots dp ip out thr st) as [c st'].
  simpl in Hout. subst c. exists
    (result_of design implementation (default default_threshold thr)
       (if truthy out then None
        else Some (Base64.encode
                     (PNG_sync_write
                        (diff_of design implementation
                           (default default_threshold thr)))))), st'.
  destruct Hwrite as [Hfalsy | Hfree].
  - rewrite Hfalsy. repeat split.
  - destruct (truthy out); [rewrite Hfree|]; repeat split.
Qed.

End Outcomes.

Section Sequences.

Context `{Externals}.

(** X4. When both images load with equal dimensions and the write to the
    output path is refused, the call throws the refusal: no result comes
    back although pixelmatch has run, and no file has changed. *)
Theorem refused_write_discards_result
    (dp ip : string) (out : option string) (thr : option Q)
    (st st1 st2 : State) (design implementation : PNG) (e : Error) :
  loadPNG dp st = (Normal design, st1) ->
  loadPNG ip st1 = (Normal implementation, st2) ->
  width design = width implementation ->
  height design = height implementation ->
  truthy out = true ->
  write_refusal (default "" out) = Some e ->
  exists st',
    compareScreenshots dp ip out thr st = (Throw e, st')
    /\ files st' = files st
    /\ pixelmatch_calls (trace st') = S (pixelmatch_calls (trace st)).
Proof.
  intros H1 H2 Hw Hh Hout Hrefused.
  rewrite (compareScreenshots_loaded _ _ _ _ _ _ _ _ _ H1 H2).
  assert (Hm : mismatch design implementation = false)
    by (apply mismatch_false; tauto).
  rewrite Hm, Hout. cbv zeta. rewrite Hrefused.
  destruct (loadPNG_frame _ _ _ _ H1) as [F1 P1].
  destruct (loadPNG_frame _ _ _ _ H2) as [F2 P2].
  eexists. split; [reflexivity|]. split.
  - simpl. congruence.
  - simpl. rewrite !pixelmatch_calls_app. cbn. lia.
Qed.

(** X5. A call that returns has made, in this order and nothing else:
    the read and the decoding of the design, the read and the decoding of
    the implementation, one call to pixelmatch with the design's
    dimensions, one encoding of the diff image, and, only when given an
    output path, one write to it. *)
Theorem successful_call_sequence
    (dp ip : string) (out : option string) (thr : option Q)
    (st st' : State) (r : CompareResult) :
  compareScreenshots dp ip out thr st = (Normal r, st') ->
  exists b1 b2 design implementation,
    files st !! dp = Some b1 /\ PNG_sync_read b1 = inr design
    /\ files st !! ip = Some b2 /\ PNG_sync_read b2 = inr implementation
    /\ trace st'
       = (trace st
          ++ [EvReadFile dp; EvPngRead b1; EvReadFile ip; EvPngRead b2;
              EvPixelmatch (width design) (height design)
                (default default_threshold thr);
              EvPngWrite (diff_of design implementation
                            (default default_threshold thr))]
          ++ (if truthy out then [EvWriteFile (default "" out)] else []))%list.
Proof.
  intros Hrun.
  destruct (compareScreenshots_Normal_inv _ _ _ _ _ _ _ Hrun)
    as (design & st1 & implementation & st2 & b64 & H1 & H2 & Hm & _).
  rewrite (compareScreenshots_loaded _ _ _ _ _ _ _ _ _ H1 H2), Hm in Hrun.
  cbv zeta in Hrun.
  rewrite loadPNG_eq in H1.
  destruct (files st !! dp) as [b1|] eqn:F1; [|discriminate].
  destruct (PNG_sync_read b1) as [e1|d] eqn:D1; [discriminate|].
  inversion H1; subst d st1; clear H1.
  rewrite loadPNG_eq in H2. simpl in H2.
  destruct (files st !! ip) as [b2|] eqn:F2; [|discriminate].
  destruct (PNG_sync_read b2) as [e2|i] eqn:D2; [discriminate|].
  inversion H2; subst i st2; clear H2.
  exists b1, b2, design, implementation. repeat split; try assumption.
  destruct (truthy out).
  - destruct (write_refusal _); [discriminate|].
    inversion Hrun; subst. simpl. now rewrite <- !app_assoc.
  - inversion Hrun; subst. simpl. now rewrite <- !app_assoc.
Qed.

End Sequences.

(** X2, on a design path that holds no file: the error is that of the
    failed read. *)
Lemma thrown_error_origin_missing_design :
  exists e st',
    @compareScreenshots Sample.externals "missing.png" "implementation.png"
      None None Sample.red_and_blue = (Throw e, st')
    /\ fst (readFile "missing.png" Sample.red_and_blue) = Throw e.
Proof.
  eexists. eexists. split; [vm_compute; reflexivity|].
  destruct (@thrown_error_origin Sample.externals "missing.png"
              "implementation.png" None None Sample.red_and_blue _ _
              ltac:(vm_compute; reflexivity))
    as [Hread | [Hread | [(bytes & [Hread | Hread] & Hdecode)
                         | [(design & implementation & Hload & _)
                           | (Hout & _)]]]].
  - exact Hread.
  - discriminate Hread.
  - discriminate Hread.
  - injection Hread as <-. discriminate Hdecode.
  - discriminate Hload.
  - discriminate Hout.
Defined.

(** X3, on a red and a blue image of four pixels. *)
Lemma comparison_returns_red_and_blue :
  exists r st',
    @compareScreenshots Sample.externals "design.png" "implementation.png"
      None None Sample.red_and_blue = (Normal r, st')
    /\ totalPixels r = 4%N
    /\ differentPixels r = 4%N.
Proof.
  edestruct (@comparison_returns Sample.externals "design.png"
               "implementation.png" None None Sample.red_and_blue)
    as (r & st' & Hrun & Htotal & Hcount);
    [vm_compute; reflexivity | vm_compute; reflexivity
    | vm_compute; reflexivity | vm_compute; reflexivity
    | reflexivity | reflexivity | left; reflexivity |].
  exists r, st'. split; [exact Hrun|]. split; [exact Htotal | exact Hcount].
Defined.

(** X4, on a write under [/readonly/]. *)
Lemma refused_write_readonly :
  exists e st',
    @compareScreenshots Sample.externals "design.png" "implementation.png"
      (Some "/readonly/diff.png") None Sample.red_and_blue = (Throw e, st')
    /\ code e = Some "EACCES"
    /\ files st' = files Sample.red_and_blue
    /\ pixelmatch_calls (trace st') = 1%nat.
Proof.
  edestruct (@refused_write_discards_result Sample.externals "design.png"
               "implementation.png" (Some "/readonly/diff.png") None
               Sample.red_and_blue) as (st' & Hrun & Hfiles & Hcalls);
    [vm_compute; reflexivity | vm_compute; reflexivity
    | reflexivity | reflexivity | reflexivity | vm_compute; reflexivity |].
  eexists. exists st'. split; [exact Hrun|]. split; [reflexivity|].
  split; [exact Hfiles | exact Hcalls].
Defined.

(** X5, on a red and a blue image saved to [diff.png]: seven calls, the
    write last. *)
Lemma call_sequence_red_and_blue :
  exists r st',
    @compareScreenshots Sample.externals "design.png" "implementation.png"
      (Some "diff.png") None Sample.red_and_blue = (Normal r, st')
    /\ exists b1 b2 design implementation,
         files Sample.red_and_blue !! "design.png" = Some b1
         /\ Sample.read b1 = inr design
         /\ files Sample.red_and_blue !! "implementation.png" = Some b2
         /\ Sample.read b2 = inr implementation
         /\ trace st'
            = [EvReadFile "design.png"; EvPngRead b1;
               EvReadFile "implementation.png"; EvPngRead b2;
               EvPixelmatch (width design) (height design) (1 # 10)%Q;
               EvPngWrite (@diff_of Sample.externals design implementation
                             (1 # 10)%Q);
               EvWriteFile "diff.png"].
Proof.
  eexists. eexists. split; [vm_compute; reflexivity|].
  eapply (@successful_call_sequence Sample.externals "design.png"
            "implementation.png" (Some "diff.png") None Sample.red_and_blue).
  vm_compute. reflexivity.
Defined.

(** ** The tool list of [src/index.ts] *)

Module ListTools.

Record PropertySchema := mkProperty {
  property_type : string;
  property_description : string;
  property_default : option Q
  }.

Record InputSchema := mkInputSchema {
  schema_type : string;
  properties : list (string * PropertySchema);
  required : list string
  }.

Record Tool := mkTool {
  name : string;
  description : string;
  inputSchema : InputSchema
  }.

Record ListToolsResult := mkResult { tools : list Tool }.

Definition compare_design : Tool :=
  {| name := "compare_design";
     description :=
       "Compare a design screenshot with an implementation screenshot using pixelmatch. Returns the number and percentage of different pixels, and optionally outputs a diff image highlighting the differences.";
     inputSchema :=
       {| schema_type := "object";
          properties :=
            [("design_path",
              {| property_type := "string";
                 property_description :=
                   "Path to the design screenshot (PNG format)";
                 property_default := None |});
             ("implementation_path",
              {| property_type := "string";
                 property_description :=
                   "Path to the implementation screenshot (PNG format)";
                 property_default := None |});
             ("output_diff_path",
              {| property_type := "string";
                 property_description :=
                   "Optional path to save the diff image. If not provided, the diff image will be returned as base64.";
                 property_default := None |});
             ("threshold",
              {| property_type := "number";
                 property_description :=
                   "Matching threshold (0-1). Smaller values make the comparison more sensitive. Default is 0.1.";
                 property_default := Some (1 # 10)%Q |})];
          required := ["design_path"; "implementation_path"] |} |}.

(** The [ListTools] request handler. *)
Definition handler : M ListToolsResult :=
  ret {| tools := [compare_design] |}.

(** The names a client is told it may call. *)
Definition advertised_names (st : State) : list string :=
  match fst (handler st) with
  | Normal result => map name (tools result)
  | Throw _ => []
  end.

(** The default a client is told a property of a tool has. *)
Definition advertised_default (tool property : string) (st : State)
    : option Q :=
  match fst (handler st) with
  | Normal result =>
      match List.find (fun t => String.eqb (name t) tool) (tools result) with
      | Some t =>
          match List.find (fun p => String.eqb (fst p) property)
                  (properties (inputSchema t)) with
          | Some p => property_default (snd p)
          | None => None
          end
      | None => None
      end
  | Throw _ => None
  end.

End ListTools.

(** ** Answers of the [CallTool] handler *)

Section Answers.

Context `{Externals}.

Lemma encode_nil_iff (l : list Byte.byte) : Base64.encode l = "" <-> l = [].
Proof.
  split; [|now intros ->].
  destruct l as [|x [|y [|z rest]]]; simpl; [reflexivity | discriminate ..].
Qed.

(** The handler on [compare_design] with arguments: the call, then one of
    the two responses. *)
Lemma CallTool_handler_compare (request : CallToolRequest)
    (args : CallToolArguments) (st : State) :
  name request = "compare_design" ->
  arguments request = Some args ->
  CallTool_handler request st
  = match compareScreenshots (design_path args) (implementation_path args)
            (output_diff_path args)
            (Some (default default_threshold (threshold args))) st with
    | (Normal result, st') =>
        (Normal
           {| content :=
                TextContent (responseText result (output_diff_path args))
                :: (if truthy (diffImageBase64 result)
                    then [ImageContent (default "" (diffImageBase64 result))
                            "image/png"]
                    else []);
              isError := None |}, st')
    | (Throw e, st') =>
        (Normal
           {| content :=
                [TextContent ("Error comparing screenshots: " ++ message e)];
              isError := Some true |}, st')
    end.
Proof.
  intros Hname Hargs. unfold CallTool_handler.
  apply String.eqb_eq in Hname. rewrite Hname, Hargs.
  unfold try_catch, bind, ret.
  destruct (compareScreenshots _ _ _ _ st) as [[result|e] st']; reflexivity.
Qed.

(** X7. On [compare_design] the handler throws only when the request
    has no arguments, and then before anything is read; with arguments it
    always answers, in the state the comparison left, and the answer is
    flagged [isError] exactly when the comparison threw. *)
Theorem compare_design_answer (request : CallToolRequest) (st : State) :
  name request = "compare_design" ->
  match arguments request with
  | None => CallTool_handler request st = (Throw destructure_error, st)
  | Some args =>
      let run :=
        compareScreenshots (design_path args) (implementation_path args)
          (output_diff_path args)
          (Some (default default_threshold (threshold args))) st in
      exists response,
        CallTool_handler request st = (Normal response, snd run)
        /\ isError response = if is_throw run then Some true else None
  end.
Proof.
  intros Hname. destruct (arguments request) as [args|] eqn:Hargs.
  - intros run. subst run.
    rewrite (CallTool_handler_compare request args st Hname Hargs).
    destruct (compareScreenshots _ _ _ _ st) as [[result|e] st'];
      eexists; split; reflexivity.
  - unfold CallTool_handler. apply String.eqb_eq in Hname.
    now rewrite Hname, Hargs.
Qed.

(** X8. The answer to a comparison that returned: one text item, which
    ends with the output path when one was given; and, when none was
    given, an [image/png] item after it that holds the base64 of the
    encoding of the diff image, the image pixelmatch filled for the two
    decoded inputs; the item is left out only if that encoding is
    empty. *)
Theorem successful_answer_content
    (request : CallToolRequest) (args : CallToolArguments)
    (st st' : State) (r : CompareResult) :
  name request = "compare_design" ->
  arguments request = Some args ->
  compareScreenshots (design_path args) (implementation_path args)
    (output_diff_path args)
    (Some (default default_threshold (threshold args))) st = (Normal r, st') ->
  exists response design implementation,
    CallTool_handler request st = (Normal response, st')
    /\ isError response = None
    /\ fst (loadPNG (design_path args) st) = Normal design
    /\ fst (loadPNG (implementation_path args) st) = Normal implementation
    /\ (truthy (output_diff_path args) = true ->
        content response
        = [TextContent (responseText r (output_diff_path args))]
        /\ exists head,
             responseText r (output_diff_path args)
             = head ++ "Diff image saved to: "
               ++ default "" (output_diff_path args))
    /\ (truthy (output_diff_path args) = false ->
        content response
        = TextContent (responseText r (output_diff_path args))
          :: match PNG_sync_write
                     (diff_of design implementation
                        (default default_threshold (threshold args))) with
             | [] => []
             | _ :: _ =>
                 [ImageContent
                    (Base64.encode
                       (PNG_sync_write
                          (diff_of design implementation
                             (default default_threshold (threshold args)))))
                    "image/png"]
             end).
Proof.
  intros Hname Hargs Hrun.
  rewrite (CallTool_handler_compare request args st Hname Hargs), Hrun.
  destruct (compareScreenshots_Normal_inv _ _ _ _ _ _ _ Hrun)
    as (design & st1 & implementation & st2 & b64 & H1 & H2 & Hm & _).
  eexists. exists design, implementation.
  split; [reflexivity|]. split; [reflexivity|].
  split; [now rewrite H1|]. split.
  { rewrite loadPNG_outcome, <- (proj1 (loadPNG_frame _ _ _ _ H1)).
    rewrite <- loadPNG_outcome. now rewrite H2. }
  rewrite (compareScreenshots_loaded _ _ _ _ _ _ _ _ _ H1 H2), Hm in Hrun.
  cbv zeta in Hrun. cbn [content]. split.
  - intros Hout. rewrite Hout in Hrun.
    destruct (write_refusal _); [discriminate|].
    inversion Hrun; subst r st'; clear Hrun. simpl. split; [reflexivity|].
    unfold responseText. rewrite Hout.
    eexists. rewrite <- !append_assoc'. reflexivity.
  - intros Hout. rewrite Hout in Hrun.
    inversion Hrun; subst r st'; clear Hrun. simpl. f_equal.
    destruct (PNG_sync_write _) as [|x l] eqn:Hbytes.
    + reflexivity.
    + destruct (Base64.encode (x :: l)) eqn:Hb64.
      * apply encode_nil_iff in Hb64. discriminate.
      * reflexivity.
Qed.

(** X9. A request to compare images of different dimensions is answered,
    not thrown: one text item flagged [isError], which names the failure
    and holds both pairs of dimensions; pixelmatch has not been called
    and no file has changed. *)
Theorem dimension_mismatch_answer
    (request : CallToolRequest) (args : CallToolArguments)
    (st st1 st2 : State) (design implementation : PNG) :
  name request = "compare_design" ->
  arguments request = Some args ->
  loadPNG (design_path args) st = (Normal design, st1) ->
  loadPNG (implementation_path args) st1 = (Normal implementation, st2) ->
  width design <> width implementation
  \/ height design <> height implementation ->
  exists text,
    CallTool_handler request st
    = (Normal {| content := [TextContent text]; isError := Some true |}, st2)
    /\ String.prefix
         "Error comparing screenshots: Image dimensions don't match" text
       = true
    /\ includes (dimensions design) text = true
    /\ includes (dimensions implementation) text = true
    /\ files st2 = files st
    /\ pixelmatch_calls (trace st2) = pixelmatch_calls (trace st).
Proof.
  intros Hname Hargs H1 H2 Hdiff.
  rewrite (CallTool_handler_compare request args st Hname Hargs).
  rewrite (compareScreenshots_loaded _ _ _ _ _ _ _ _ _ H1 H2).
  apply mismatch_true in Hdiff. rewrite Hdiff.
  destruct (loadPNG_frame _ _ _ _ H1) as [F1 P1].
  destruct (loadPNG_frame _ _ _ _ H2) as [F2 P2].
  exists ("Error comparing screenshots: "
          ++ dimensions_message design implementation).
  split; [reflexivity|]. split; [reflexivity|].
  unfold dimensions_message. split; [|split; [|split; congruence]].
  - apply (includes_intro _ _
             "Error comparing screenshots: Image dimensions don't match: design ("
             (") vs implementation (" ++ dimensions implementation ++ ")")).
    unfold dimensions. rewrite !append_assoc'. reflexivity.
  - apply (includes_intro _ _
             ("Error comparing screenshots: Image dimensions don't match: design ("
              ++ dimensions design ++ ") vs implementation (") ")").
    unfold dimensions. rewrite !append_assoc'. reflexivity.
Qed.

(** X10. The tools the [ListTools] handler advertises are the ones the
    [CallTool] handler accepts: a request is turned away as an unknown
    tool exactly when its name is not in the list. *)
Theorem advertised_tools_are_accepted
    (request : CallToolRequest) (st : State) :
  In (name request) (ListTools.advertised_names st)
  <-> fst (CallTool_handler request st)
      <> Throw (new_Error ("Unknown tool: " ++ name request)).
Proof.
  unfold ListTools.advertised_names. simpl. split.
  - intros [Hname | []]. symmetry in Hname.
    destruct (arguments request) as [args|] eqn:Hargs.
    + rewrite (CallTool_handler_compare request args st Hname Hargs).
      destruct (compareScreenshots _ _ _ _ st) as [[result|e] st'];
        discriminate.
    + unfold CallTool_handler. apply String.eqb_eq in Hname.
      rewrite Hname, Hargs. apply String.eqb_eq in Hname. rewrite Hname.
      discriminate.
  - intros Hkept. left.
    destruct (String.eqb (name request) "compare_design") eqn:Hname.
    + symmetry. now apply String.eqb_eq.
    + exfalso. apply Hkept. unfold CallTool_handler. now rewrite Hname.
Qed.

(** X11. The default the tool list advertises for [threshold] is the one
    in force: a call, and a request, that leave the threshold out end as
    the ones that give the advertised value. *)
Theorem advertised_threshold_default_in_force
    (d : Q) (dp ip : string) (out : option string) (st : State) :
  ListTools.advertised_default "compare_design" "threshold" st = Some d ->
  compareScreenshots dp ip out None st = compareScreenshots dp ip out (Some d) st
  /\ CallTool_handler
       {| name := "compare_design";
          arguments := Some {| design_path := dp; implementation_path := ip;
                               output_diff_path := out; threshold := None |} |}
       st
     = CallTool_handler
         {| name := "compare_design";
            arguments := Some {| design_path := dp; implementation_path := ip;
                                 output_diff_path := out;
                                 threshold := Some d |} |}
         st.
Proof.
  intros Hadvertised. vm_compute in Hadvertised.
  inversion Hadvertised; subst d. split; reflexivity.
Qed.

End Answers.

(** X7, on a request whose design file is missing: answered, flagged. *)
Lemma compare_design_answer_missing_file :
  exists response st',
    @CallTool_handler Sample.externals
      {| name := "compare_design";
         arguments := Some {| design_path := "missing.png";
                              implementation_path := "implementation.png";
                              output_diff_path := None;
                              threshold := None |} |} Sample.two_reds
    = (Normal response, st')
    /\ isError response = Some true.
Proof.
  destruct (@compare_design_answer Sample.externals
              {| name := "compare_design";
                 arguments := Some {| design_path := "missing.png";
                                      implementation_path := "implementation.png";
                                      output_diff_path := None;
                                      threshold := None |} |}
              Sample.two_reds eq_refl) as (response & Hrun & Herr).
  exists response. eexists. split; [exact Hrun | exact Herr].
Defined.

(** X8, on a red and a blue image with no output path: after the text
    item, an image item holding the base64 of four encoded marker
    pixels. *)
Lemma successful_answer_red_and_blue :
  exists response st' text,
    @CallTool_handler Sample.externals
      {| name := "compare_design";
         arguments := Some {| design_path := "design.png";
                              implementation_path := "implementation.png";
                              output_diff_path := None;
                              threshold := None |} |} Sample.red_and_blue
    = (Normal response, st')
    /\ isError response = None
    /\ content response
       = [TextContent text;
          ImageContent
            (Base64.encode
               (Sample.write
                  {| width := 2; height := 2;
                     data := concat (repeat (Comparator.channels Sample.red) 4) |}))
            "image/png"].
Proof.
  edestruct (@successful_answer_content Sample.externals
               {| name := "compare_design";
                  arguments := Some {| design_path := "design.png";
                                       implementation_path := "implementation.png";
                                       output_diff_path := None;
                                       threshold := None |} |}
               {| design_path := "design.png";
                  implementation_path := "implementation.png";
                  output_diff_path := None; threshold := None |}
               Sample.red_and_blue)
    as (response & design & implementation & Hrun & Herr & L1 & L2 & _ & Himage);
    [reflexivity | reflexivity | vm_compute; reflexivity |].
  exists response. do 2 eexists. split; [exact Hrun|]. split; [exact Herr|].
  refine (eq_trans (Himage eq_refl) _).
  vm_compute in L1. injection L1 as <-.
  vm_compute in L2. injection L2 as <-.
  vm_compute. reflexivity.
Defined.

(** X9, on the fixtures of the dimension test. *)
Lemma dimension_mismatch_answer_10x10_20x20 :
  exists text st',
    @CallTool_handler Sample.externals
      {| name := "compare_design";
         arguments := Some {| design_path := "size1.png";
                              implementation_path := "size2.png";
                              output_diff_path := None;
                              threshold := None |} |} Sample.sizes
    = (Normal {| content := [TextContent text]; isError := Some true |}, st')
    /\ includes "10x10" text = true
    /\ includes "20x20" text = true.
Proof.
  edestruct (@dimension_mismatch_answer Sample.externals
               {| name := "compare_design";
                  arguments := Some {| design_path := "size1.png";
                                       implementation_path := "size2.png";
                                       output_diff_path := None;
                                       threshold := None |} |}
               {| design_path := "size1.png";
                  implementation_path := "size2.png";
                  output_diff_path := None; threshold := None |}
               Sample.sizes)
    as (text & Hrun & _ & Hdesign & Himpl & _);
    [reflexivity | reflexivity | vm_compute; reflexivity
    | vm_compute; reflexivity | left; vm_compute; discriminate |].
  exists text. eexists. split; [exact Hrun|].
  split; [exact Hdesign | exact Himpl].
Defined.

(** X11, on the advertised value 0.1. *)
Lemma advertised_threshold_default_is_one_tenth :
  @compareScreenshots Sample.externals "design.png" "implementation.png"
    None None Sample.red_and_blue
  = @compareScreenshots Sample.externals "design.png" "implementation.png"
      None (Some (1 # 10)%Q) Sample.red_and_blue
  /\ @CallTool_handler Sample.externals
       {| name := "compare_design";
          arguments := Some {| design_path := "design.png";
                               implementation_path := "implementation.png";
                               output_diff_path := None;
                               threshold := None |} |} Sample.red_and_blue
     = @CallTool_handler Sample.externals
         {| name := "compare_design";
            arguments := Some {| design_path := "design.png";
                                 implementation_path := "implementation.png";
                                 output_diff_path := None;
                                 threshold := Some (1 # 10)%Q |} |}
         Sample.red_and_blue.
Proof.
  apply (@advertised_threshold_default_in_force Sample.externals).
  vm_compute. reflexivity.
Defined.

(** * The fixture of the test suite, [createTestPNG] of [index.test.ts] *)

Module TestFixture.

Record Color := mkColor { r : N; g : N; b : N; a : N }.

(** Conversion to a signed 32-bit integer, as the shift operators do. *)
Definition to_int32 (z : Z) : Z :=
  let m := (z mod 2 ^ 32)%Z in
  if (m <? 2 ^ 31)%Z then m else (m - 2 ^ 32)%Z.

(** [z << 2] *)
Definition shl2 (z : Z) : Z := to_int32 (z * 4).

(** The byte a [Buffer] keeps of a number stored into it. *)
Definition uint8 (n : N) : Byte.byte :=
  match Byte.of_N (n mod 256) with
  | Some x => x
  | None => Byte.x00
  end.

(** [buf[idx] = v] on a [Buffer]: a store outside its length does
    nothing. *)
Definition store (buf : list Byte.byte) (idx : Z) (v : N) : list Byte.byte :=
  if (idx <? 0)%Z then buf else <[Z.to_nat idx := uint8 v]> buf.

(** The body of the inner loop. *)
Definition paint (width : N) (color : Color) (y x : N)
    (buf : list Byte.byte) : list Byte.byte :=
  let idx := shl2 (Z.of_N (width * y + x)) in
  let buf := store buf idx (r color) in
  let buf := store buf (idx + 1) (g color) in
  let buf := store buf (idx + 2) (b color) in
  store buf (idx + 3) (a color).

(** [for (let x = 0; x < width; x++)] *)
Definition paint_row (width : N) (color : Color) (y : N)
    (buf : list Byte.byte) : list Byte.byte :=
  fold_left (fun buf x => paint width color y (N.of_nat x) buf)
    (seq 0 (N.to_nat width)) buf.

(** [for (let y = 0; y < height; y++)] *)
Definition paint_rows (width height : N) (color : Color)
    (buf : list Byte.byte) : list Byte.byte :=
  fold_left (fun buf y => paint_row width color (N.of_nat y) buf)
    (seq 0 (N.to_nat height)) buf.

(** The image the fixture builds before it writes it. *)
Definition image (width height : N) (color : Color) : PNG :=
  let png := new_PNG width height in
  mkPNG width height (paint_rows width height color (data png)).

Section Fixture.

Context `{Externals}.

Definition createTestPNG (width height : N) (color : Color)
    (filePath : string) : M unit :=
  let png := image width height color in
  emit (EvPngWrite png) ;;;
  writeFile filePath (PNG_sync_write png).

End Fixture.

(** ** The loops fill the buffer *)

Definition pixel_bytes (color : Color) : list Byte.byte :=
  [uint8 (r color); uint8 (g color); uint8 (b color); uint8 (a color)].

(** The inner loop's body at pixel number [k]. *)
Definition paint_at (color : Color) (k : nat) (buf : list Byte.byte)
    : list Byte.byte :=
  paint 1 color (N.of_nat k) 0 buf.

Lemma shl2_small (z : Z) :
  (0 <= z)%Z -> (4 * z < 2 ^ 31)%Z -> shl2 z = (4 * z)%Z.
Proof.
  intros H0 Hlt. unfold shl2, to_int32.
  rewrite Z.mod_small by lia.
  destruct (z * 4 <? 2 ^ 31)%Z eqn:Hcmp; [lia|].
  apply Z.ltb_ge in Hcmp. lia.
Qed.

Lemma paint_is_paint_at (width : N) (color : Color) (y x : nat)
    (buf : list Byte.byte) :
  paint width color (N.of_nat y) (N.of_nat x) buf
  = paint_at color (N.to_nat width * y + x) buf.
Proof.
  unfold paint_at, paint. 
  replace (Z.of_N (width * N.of_nat y + N.of_nat x))
    with (Z.of_N (1 * N.of_nat (N.to_nat width * y + x) + 0)) by lia.
  reflexivity.
Qed.

Lemma fold_left_seq_shift {A : Type} (f g : A -> nat -> A)
    (start n : nat) (acc : A) :
  (forall acc i, (i < n)%nat -> f acc i = g acc (start + i)%nat) ->
  fold_left f (seq 0 n) acc = fold_left g (seq start n) acc.
Proof.
  induction n as [|n IH]; intros Hfg; [reflexivity|].
  rewrite !seq_S, !fold_left_app. simpl.
  rewrite IH by (intros; apply Hfg; lia). apply Hfg. lia.
Qed.

Lemma paint_row_linear (width : N) (color : Color) (y : nat)
    (buf : list Byte.byte) :
  paint_row width color (N.of_nat y) buf
  = fold_left (fun buf k => paint_at color k buf)
      (seq (N.to_nat width * y) (N.to_nat width)) buf.
Proof.
  unfold paint_row. apply fold_left_seq_shift.
  intros acc i _. apply paint_is_paint_at.
Qed.

Lemma paint_rows_linear (width : N) (color : Color) (m : nat)
    (buf : list Byte.byte) :
  fold_left (fun buf y => paint_row width color (N.of_nat y) buf)
    (seq 0 m) buf
  = fold_left (fun buf k => paint_at color k buf)
      (seq 0 (N.to_nat width * m)) buf.
Proof.
  induction m as [|m IH]; [now rewrite Nat.mul_0_r|].
  rewrite seq_S, fold_left_app. simpl. rewrite IH, paint_row_linear.
  replace (N.to_nat width * S m)%nat
    with (N.to_nat width * m + N.to_nat width)%nat by lia.
  rewrite seq_app, fold_left_app. reflexivity.
Qed.

Lemma store_app (prefix rest : list Byte.byte) (j : nat) (v : N) :
  store (prefix ++ rest)%list (Z.of_nat (length prefix + j)) v
  = (prefix ++ <[j := uint8 v]> rest)%list.
Proof.
  unfold store. destruct (Z.of_nat (length prefix + j) <? 0)%Z eqn:Hneg;
    [apply Z.ltb_lt in Hneg; lia|].
  rewrite Nat2Z.id, insert_app_r_alt by lia.
  now replace (length prefix + j - length prefix)%nat with j by lia.
Qed.

Lemma paint_at_app (color : Color) (k : nat) (prefix rest : list Byte.byte)
    (x0 x1 x2 x3 : Byte.byte) :
  length prefix = (4 * k)%nat ->
  (4 * Z.of_nat k < 2 ^ 31)%Z ->
  paint_at color k (prefix ++ x0 :: x1 :: x2 :: x3 :: rest)%list
  = (prefix ++ pixel_bytes color ++ rest)%list.
Proof.
  intros Hlen Hsmall. unfold paint_at, paint.
  rewrite shl2_small by lia.
  replace (4 * Z.of_N (1 * N.of_nat k + 0))%Z
    with (Z.of_nat (length prefix + 0)) by lia.
  rewrite store_app.
  replace (Z.of_nat (length prefix + 0) + 1)%Z
    with (Z.of_nat (length prefix + 1)) by lia.
  rewrite store_app.
  replace (Z.of_nat (length prefix + 0) + 2)%Z
    with (Z.of_nat (length prefix + 2)) by lia.
  rewrite store_app.
  replace (Z.of_nat (length prefix + 0) + 3)%Z
    with (Z.of_nat (length prefix + 3)) by lia.
  rewrite store_app. reflexivity.
Qed.

Lemma length_pixels (color : Color) (k : nat) :
  length (concat (repeat (pixel_bytes color) k)) = (4 * k)%nat.
Proof.
  induction k as [|k IH]; [reflexivity|].
  simpl repeat. rewrite concat_cons, length_app, IH. simpl. lia.
Qed.

Lemma paint_first_pixels (color : Color) (n k : nat) :
  (k <= n)%nat ->
  (4 * Z.of_nat n < 2 ^ 31)%Z ->
  fold_left (fun buf k => paint_at color k buf) (seq 0 k)
    (repeat Byte.x00 (4 * n))
  = (concat (repeat (pixel_bytes color) k)
     ++ repeat Byte.x00 (4 * (n - k)))%list.
Proof.
  intros Hk Hsmall. induction k as [|k IH].
  - now rewrite Nat.sub_0_r.
  - rewrite seq_S, fold_left_app, IH by lia. cbn [fold_left Nat.add].
    replace (4 * (n - k))%nat with (S (S (S (S (4 * (n - S k)))))) by lia.
    change (repeat Byte.x00 (S (S (S (S (4 * (n - S k)))))))
      with (Byte.x00 :: Byte.x00 :: Byte.x00 :: Byte.x00
            :: repeat Byte.x00 (4 * (n - S k))).
    rewrite paint_at_app by (rewrite ?length_pixels; lia).
    rewrite app_assoc. f_equal.
    change (repeat (pixel_bytes color) (S k))
      with (pixel_bytes color :: repeat (pixel_bytes color) k).
    rewrite repeat_cons, concat_app. f_equal.
Qed.

(** X13. For an image of fewer than 2^29 pixels, the two loops of the
    fixture leave a buffer that holds the colour's four bytes once per
    pixel and nothing else: every pixel is painted, none twice over
    another, and nothing is stored outside the buffer. *)
Theorem fixture_paints_every_pixel (width height : N) (color : Color) :
  (4 * (width * height) < 2 ^ 31)%N ->
  data (image width height color)
  = concat (repeat (pixel_bytes color) (N.to_nat (width * height)))
  /\ length (data (image width height color))
     = N.to_nat (4 * width * height).
Proof.
  intros Hsmall.
  assert (Hdata : data (image width height color)
                  = concat (repeat (pixel_bytes color)
                              (N.to_nat (width * height)))).
  { unfold image, new_PNG, paint_rows. simpl.
    rewrite paint_rows_linear.
    replace (N.to_nat (4 * width * height))
      with (4 * (N.to_nat width * N.to_nat height))%nat by lia.
    rewrite paint_first_pixels by lia.
    rewrite Nat.sub_diag. simpl. rewrite app_nil_r.
    f_equal. f_equal. lia. }
  split; [exact Hdata|]. rewrite Hdata, length_pixels. lia.
Qed.

(** X13, on the red 10x10 image of the test suite. *)
Lemma fixture_paints_10x10_red :
  data (image 10 10 {| r := 255; g := 0; b := 0; a := 255 |})
  = concat (repeat [Byte.xff; Byte.x00; Byte.x00; Byte.xff] 100)
  /\ length (data (image 10 10 {| r := 255; g := 0; b := 0; a := 255 |}))
     = 400%nat.
Proof.
  apply (fixture_paints_every_pixel 10 10
           {| r := 255; g := 0; b := 0; a := 255 |}).
  vm_compute. reflexivity.
Defined.

End TestFixture.

(** ** Fixtures through the program *)

Section FixtureRuns.

Context `{Externals}.

Lemma createTestPNG_written width height color filePath st :
  write_refusal filePath = None ->
  TestFixture.createTestPNG width height color filePath st
  = (Normal tt,
     {| files :=
          <[filePath := PNG_sync_write (TestFixture.image width height color)]>
            (files st);
        trace :=
          (trace st
           ++ [EvPngWrite (TestFixture.image width height color);
               EvWriteFile filePath])%list |}).
Proof.
  intros Hfree. unfold TestFixture.createTestPNG, writeFile, bind, emit. simpl.
  rewrite Hfree. now rewrite <- app_assoc.
Qed.

(** X14. A fixture written where the write is not refused loads back as
    the image that was built, provided the decoder reads back what the
    encoder wrote for it; no other file has changed. *)
Theorem fixture_loads_back
    (width height : N) (color : TestFixture.Color) (filePath : string)
    (st : State) :
  write_refusal filePath = None ->
  PNG_sync_read (PNG_sync_write (TestFixture.image width height color))
  = inr (TestFixture.image width height color) ->
  exists st',
    TestFixture.createTestPNG width height color filePath st = (Normal tt, st')
    /\ (forall p, p <> filePath -> files st' !! p = files st !! p)
    /\ fst (loadPNG filePath st')
       = Normal (mkPNG width height
                   (data (TestFixture.image width height color))).
Proof.
  intros Hfree Hcodec. rewrite createTestPNG_written by assumption.
  eexists. split; [reflexivity|]. split.
  - intros p Hp. simpl. now apply lookup_insert_ne.
  - rewrite loadPNG_outcome. simpl. rewrite lookup_insert_eq. simpl.
    rewrite Hcodec. reflexivity.
Qed.

(** X15. Two fixtures written to different paths and then compared: when
    their sizes differ the call throws the dimension error for the two
    images; when they agree it returns a result of width times height
    pixels with the base64 field. The decoder is taken to read back what
    the encoder wrote for the two images. *)
Theorem fixtures_compared_by_size
    (w1 h1 w2 h2 : N) (c1 c2 : TestFixture.Color) (p1 p2 : string)
    (st : State) :
  p1 <> p2 ->
  write_refusal p1 = None -> write_refusal p2 = None ->
  PNG_sync_read (PNG_sync_write (TestFixture.image w1 h1 c1))
  = inr (TestFixture.image w1 h1 c1) ->
  PNG_sync_read (PNG_sync_write (TestFixture.image w2 h2 c2))
  = inr (TestFixture.image w2 h2 c2) ->
  let written :=
    snd (TestFixture.createTestPNG w2 h2 c2 p2
           (snd (TestFixture.createTestPNG w1 h1 c1 p1 st))) in
  let outcome := fst (compareScreenshots p1 p2 None None written) in
  if ((w1 =? w2) && (h1 =? h2))%N
  then exists r b64,
         outcome = Normal r
         /\ totalPixels r = (w1 * h1)%N
         /\ diffImageBase64 r = Some b64
  else outcome
       = Throw (new_Error
                  (dimensions_message (TestFixture.image w1 h1 c1)
                     (TestFixture.image w2 h2 c2))).
Proof.
  intros Hpaths Hfree1 Hfree2 Hcodec1 Hcodec2 written outcome.
  subst outcome written.
  rewrite !createTestPNG_written by assumption. simpl.
  rewrite compareScreenshots_outcome. simpl.
  rewrite lookup_insert_ne, !lookup_insert_eq by congruence.
  unfold comparison_outcome, load_outcome. rewrite Hcodec1, Hcodec2.
  unfold mismatch. simpl.
  destruct (w1 =? w2)%N; destruct (h1 =? h2)%N; simpl; try reflexivity.
  do 2 eexists. repeat split.
Qed.

End FixtureRuns.

(** X14, on the red 10x10 fixture of the loading test. *)
Lemma fixture_10x10_loads_back :
  exists st',
    @TestFixture.createTestPNG Sample.externals 10 10
      {| TestFixture.r := 255; TestFixture.g := 0; TestFixture.b := 0;
         TestFixture.a := 255 |} "test.png" (Sample.disk [])
    = (Normal tt, st')
    /\ fst (@loadPNG Sample.externals "test.png" st')
       = Normal (mkPNG 10 10 (concat (repeat (Comparator.channels Sample.red) 100))).
Proof.
  edestruct (@fixture_loads_back Sample.externals 10 10
               {| TestFixture.r := 255; TestFixture.g := 0;
                  TestFixture.b := 0; TestFixture.a := 255 |}
               "test.png" (Sample.disk []))
    as (st' & Hwritten & _ & Hloaded);
    [reflexivity | vm_compute; reflexivity |].
  exists st'. split; [exact Hwritten|]. rewrite Hloaded.
  vm_compute. reflexivity.
Defined.

(** X15, on the fixtures of the dimension test: 10x10 red, 20x20 blue. *)
Lemma fixtures_10x10_20x20_rejected :
  let red := {| TestFixture.r := 255; TestFixture.g := 0; TestFixture.b := 0;
                TestFixture.a := 255 |} in
  let blue := {| TestFixture.r := 0; TestFixture.g := 0; TestFixture.b := 255;
                 TestFixture.a := 255 |} in
  fst (@compareScreenshots Sample.externals "size1.png" "size2.png" None None
         (snd (@TestFixture.createTestPNG Sample.externals 20 20 blue
                 "size2.png"
                 (snd (@TestFixture.createTestPNG Sample.externals 10 10 red
                         "size1.png" (Sample.disk []))))))
  = Throw (new_Error
             (dimensions_message (TestFixture.image 10 10 red)
                (TestFixture.image 20 20 blue))).
Proof.
  intros red blue.
  pose proof (@fixtures_compared_by_size Sample.externals 10 10 20 20
                red blue "size1.png" "size2.png" (Sample.disk [])) as Hthm.
  apply Hthm;
    [discriminate | reflexivity | reflexivity
    | vm_compute; reflexivity | vm_compute; reflexivity].
Defined.

(** ** What a request may write *)

Section Writes.

Context `{Externals}.

(** X16. A request changes no file, with one exception: a
    [compare_design] request that names an output path and is answered
    without [isError] has set the file at that path. Requests for other
    tools, requests without arguments and failed comparisons write
    nothing. *)
Theorem request_writes_only_the_output_path
    (request : CallToolRequest) (st : State) (p : string) :
  files (snd (CallTool_handler request st)) !! p <> files st !! p ->
  name request = "compare_design"
  /\ exists args response,
       arguments request = Some args
       /\ truthy (output_diff_path args) = true
       /\ p = default "" (output_diff_path args)
       /\ fst (CallTool_handler request st) = Normal response
       /\ isError response = None.
Proof.
  intros Hchanged.
  destruct (String.eqb (name request) "compare_design") eqn:Hname.
  2:{ exfalso. apply Hchanged. unfold CallTool_handler. now rewrite Hname. }
  apply String.eqb_eq in Hname. split; [exact Hname|].
  destruct (arguments request) as [args|] eqn:Hargs.
  2:{ exfalso. apply Hchanged. unfold CallTool_handler.
      apply String.eqb_eq in Hname. now rewrite Hname, Hargs. }
  exists args.
  rewrite (CallTool_handler_compare request args st Hname Hargs) in *.
  destruct (compareScreenshots_files (design_path args)
              (implementation_path args) (output_diff_path args)
              (Some (default default_threshold (threshold args))) st)
    as [Hsame | (Hout & Hreturned & diff & Hset)].
  - exfalso. apply Hchanged.
    destruct (compareScreenshots _ _ _ _ st) as [[result|e] st'];
      simpl in *; now rewrite Hsame.
  - destruct (compareScreenshots _ _ _ _ st) as [[result|e] st'];
      simpl in *; [|discriminate].
    eexists. split; [reflexivity|]. split; [exact Hout|].
    split; [|split; reflexivity].
    destruct (decide (p = default "" (output_diff_path args)))
      as [Heq | Hne]; [exact Heq|].
    exfalso. apply Hchanged. rewrite Hset. now apply lookup_insert_ne.
Qed.

End Writes.

(** X16, on a request that saves the diff image to [diff.png]. *)
Lemma request_writes_diff_png :
  let request :=
    {| name := "compare_design";
       arguments := Some {| design_path := "design.png";
                            implementation_path := "implementation.png";
                            output_diff_path := Some "diff.png";
                            threshold := None |} |} in
  files (snd (@CallTool_handler Sample.externals request Sample.red_and_blue))
    !! "diff.png" <> None
  /\ exists response,
       fst (@CallTool_handler Sample.externals request Sample.red_and_blue)
       = Normal response
       /\ isError response = None.
Proof.
  intros request.
  assert (Hchanged :
            files (snd (@CallTool_handler Sample.externals request
                          Sample.red_and_blue)) !! "diff.png"
            <> files Sample.red_and_blue !! "diff.png")
    by (vm_compute; discriminate).
  destruct (@request_writes_only_the_output_path Sample.externals request
              Sample.red_and_blue "diff.png" Hchanged)
    as (_ & args & response & _ & _ & _ & Hanswer & Hflag).
  split; [vm_compute; discriminate|].
  exists response. split; [exact Hanswer | exact Hflag].
Defined.
